(** * CodeQuality: file admission and review-request assembly

    A shallow embedding of the two units of the AI code reviewer that carry
    logic: the file filter of [components/ProjectInput.tsx]
    ([matchesPattern], [shouldIgnoreFile], [handleFileChange]) and the
    request builder of [services/geminiService.ts]
    ([getProjectReviewFeedback]).

    JavaScript strings are sequences of UTF-16 code units; they are modelled
    as [list N], so that [includes], [endsWith], [substring] and the UTF-8
    byte count of [TextEncoder] are the ones of the language. *)

From Stdlib Require Import NArith ZArith Lia.
From stdpp Require Import base numbers option list strings gmap fin_maps.

Abbreviation jsstring := (list N).

(** ** The JavaScript primitives the program calls *)
Module JS.

(** A string literal of the source, as code units. *)
Definition lit (s : string) : jsstring :=
  Ascii.N_of_ascii <$> String.list_ascii_of_string s.

(** [s.startsWith(p)] *)
Fixpoint startsWith (s p : jsstring) {struct p} : bool :=
  match p, s with
  | [], _ => true
  | _ :: _, [] => false
  | b :: p', a :: s' => (a =? b)%N && startsWith s' p'
  end.

(** [s.endsWith(p)] *)
Definition endsWith (s p : jsstring) : bool :=
  startsWith (reverse s) (reverse p).

(** [s.includes(p)] *)
Fixpoint includes (s p : jsstring) : bool :=
  startsWith s p ||
  match s with
  | [] => false
  | _ :: s' => includes s' p
  end.

(** [s.lastIndexOf(c)] for a one-unit needle; [-1] when absent. *)
Fixpoint lastIndexOf_from (c : N) (s : jsstring) (i acc : Z) : Z :=
  match s with
  | [] => acc
  | a :: s' => lastIndexOf_from c s' (i + 1) (if (a =? c)%N then i else acc)
  end.

Definition lastIndexOf (s : jsstring) (c : N) : Z :=
  lastIndexOf_from c s 0 (-1).

(** [s.substring(i)]: negative starts are clamped to 0. *)
Definition substring (s : jsstring) (i : Z) : jsstring :=
  drop (Z.to_nat i) s.

(** [s.split(sep)[0]] for a one-unit separator. *)
Fixpoint split_head (s : jsstring) (sep : N) : jsstring :=
  match s with
  | [] => []
  | a :: s' => if (a =? sep)%N then [] else a :: split_head s' sep
  end.

(** [s.replace(/\\/g, '/')] *)
Definition backslash : N := 92.
Definition slash : N := 47.
Definition dot : N := 46.

Definition replace_backslashes (s : jsstring) : jsstring :=
  (fun c => if (c =? backslash)%N then slash else c) <$> s.

(** Truthiness of a string: only the empty string is falsy. *)
Definition truthy (s : jsstring) : bool :=
  match s with [] => false | _ :: _ => true end.

(** Decimal rendering of a non-negative integer, as [String(n)] and the
    template literal [`${n}`] give it (below 10^21, where JavaScript does
    not switch to exponent notation). *)
Fixpoint digits (u : Decimal.uint) : jsstring :=
  match u with
  | Decimal.Nil => []
  | Decimal.D0 u => 48%N :: digits u
  | Decimal.D1 u => 49%N :: digits u
  | Decimal.D2 u => 50%N :: digits u
  | Decimal.D3 u => 51%N :: digits u
  | Decimal.D4 u => 52%N :: digits u
  | Decimal.D5 u => 53%N :: digits u
  | Decimal.D6 u => 54%N :: digits u
  | Decimal.D7 u => 55%N :: digits u
  | Decimal.D8 u => 56%N :: digits u
  | Decimal.D9 u => 57%N :: digits u
  end.

Definition show (n : N) : jsstring := digits (N.to_uint n).

(** [Math.round(n / d)] for non-negative integers [n] and a power of two
    [d]: the quotient is exact in binary floating point and [Math.round]
    rounds halves up. *)
Definition round_div (n d : N) : N := ((2 * n + d) / (2 * d))%N.

(** [(n / d).toFixed(0)], same domain: the nearest integer, the larger one
    on a tie. *)
Definition toFixed0_div (n d : N) : jsstring := show (round_div n d).

(** [new TextEncoder().encode(s).length]: one to three bytes per code
    unit, four for a surrogate pair, three (U+FFFD) for a lone surrogate. *)
Definition is_high_surrogate (c : N) : bool := (0xD800 <=? c)%N && (c <=? 0xDBFF)%N.
Definition is_low_surrogate (c : N) : bool := (0xDC00 <=? c)%N && (c <=? 0xDFFF)%N.

Fixpoint utf8_length (s : jsstring) : N :=
  match s with
  | [] => 0
  | c :: s' =>
      if (c <? 0x80)%N then 1 + utf8_length s'
      else if (c <? 0x800)%N then 2 + utf8_length s'
      else if is_high_surrogate c then
        match s' with
        | d :: s'' =>
            if is_low_surrogate d then 4 + utf8_length s''
            else 3 + utf8_length s'
        | [] => 3
        end
      else 3 + utf8_length s'
  end%N.

(** [await blob.text()]: the UTF-8 decoding of the bytes of the file, as the
    Encoding Standard defines it.  It never fails on the bytes: every
    malformed sequence becomes U+FFFD, a leading byte order mark is dropped,
    and a code point above U+FFFF becomes a surrogate pair.  The state is
    the number of continuation bytes still expected, the code point so far,
    and the bounds within which the next byte must lie. *)
Definition code_units (cp : N) : jsstring :=
  if (cp <=? 0xFFFF)%N then [cp]
  else [0xD800 + N.shiftr (cp - 0x10000) 10; 0xDC00 + N.land (cp - 0x10000) 0x3FF]%N.

Definition decoder_idle : N * N * N * N := (0, 0, 0x80, 0xBF)%N.

(** A byte read when no sequence is open: what it emits and the state it
    leaves. *)
Definition lead_byte (b : N) : jsstring * (N * N * N * N) :=
  if (b <=? 0x7F)%N then ([b], decoder_idle)
  else if (0xC2 <=? b)%N && (b <=? 0xDF)%N then
    ([], (1, N.land b 0x1F, 0x80, 0xBF)%N)
  else if (0xE0 <=? b)%N && (b <=? 0xEF)%N then
    ([], (2, N.land b 0xF,
          if (b =? 0xE0)%N then 0xA0 else 0x80,
          if (b =? 0xED)%N then 0x9F else 0xBF)%N)
  else if (0xF0 <=? b)%N && (b <=? 0xF4)%N then
    ([], (3, N.land b 0x7,
          if (b =? 0xF0)%N then 0x90 else 0x80,
          if (b =? 0xF4)%N then 0x8F else 0xBF)%N)
  else ([0xFFFD%N], decoder_idle).

Fixpoint decode_from (st : N * N * N * N) (bytes : list N) : jsstring :=
  let '(needed, cp, lower, upper) := st in
  match bytes with
  | [] => if (needed =? 0)%N then [] else [0xFFFD%N]
  | b :: rest =>
      if (needed =? 0)%N then
        let '(out, st') := lead_byte b in out ++ decode_from st' rest
      else if (lower <=? b)%N && (b <=? upper)%N then
        let cp' := N.lor (N.shiftl cp 6) (N.land b 0x3F) in
        if (needed =? 1)%N then code_units cp' ++ decode_from decoder_idle rest
        else decode_from (needed - 1, cp', 0x80, 0xBF)%N rest
      else
        let '(out, st') := lead_byte b in
        0xFFFD%N :: out ++ decode_from st' rest
  end.

Definition utf8_decode (bytes : list N) : jsstring :=
  match bytes with
  | 0xEF%N :: 0xBB%N :: 0xBF%N :: rest => decode_from decoder_idle rest
  | _ => decode_from decoder_idle bytes
  end.

(** [toLowerCase] follows the Unicode case tables, which the program does
    not contain; it is a parameter of the development.  What is used of it
    is its behaviour on ASCII text. *)
Definition ascii_lower (c : N) : N :=
  if (65 <=? c)%N && (c <=? 90)%N then (c + 32)%N else c.

Definition is_ascii (s : jsstring) : Prop := Forall (fun c => (c < 128)%N) s.

Definition lowercases_ascii (toLowerCase : jsstring -> jsstring) : Prop :=
  forall s, is_ascii s -> toLowerCase s = ascii_lower <$> s.

(** The least case mapping with that behaviour, for concrete runs. *)
Definition toLowerCase_ascii_only (s : jsstring) : jsstring := ascii_lower <$> s.

End JS.

(** ** components/ProjectInput.tsx *)

Record ProjectFile := { path : jsstring; content : jsstring }.

Definition ALLOWED_EXTENSIONS_AND_FILENAMES : list jsstring := JS.lit <$> [
  (* JavaScript / TypeScript *)
  ".js"; ".jsx"; ".ts"; ".tsx"; ".mjs"; ".cjs";
  "package.json"; "tsconfig.json"; "jsconfig.json";
  ".eslintrc.json"; ".prettierrc.json"; ".babelrc.json";
  (* HTML / CSS *)
  ".html"; ".htm"; ".css"; ".scss"; ".sass"; ".less"; ".styl";
  (* Python *)
  ".py"; "requirements.txt"; "Pipfile"; "pyproject.toml"; ".python-version";
  (* Java / Kotlin / Scala / Groovy *)
  ".java"; ".kt"; ".kts"; ".scala"; ".groovy";
  "pom.xml"; "build.gradle"; "build.gradle.kts"; "settings.gradle";
  (* Ruby *)
  ".rb"; "Gemfile"; "Rakefile"; ".ruby-version";
  (* PHP *)
  ".php"; "composer.json";
  (* Go *)
  ".go"; "go.mod"; "go.sum";
  (* Rust *)
  ".rs"; "Cargo.toml"; "Cargo.lock";
  (* C / C++ *)
  ".c"; ".cpp"; ".h"; ".hpp"; "Makefile"; "CMakeLists.txt";
  (* Swift / Objective-C *)
  ".swift"; ".m"; ".h";
  (* Shell / Docker / Config *)
  ".sh"; ".bash"; ".zsh"; "Dockerfile"; "docker-compose.yml"; ".yml"; ".yaml"; ".json";
  ".xml"; ".ini"; ".toml"; ".conf"; ".cfg"; ".properties";
  (* Markdown / Text *)
  ".md"; ".txt"; ".rst";
  (* SQL *)
  ".sql";
  (* WebAssembly Text Format *)
  ".wat";
  (* Frontend Frameworks *)
  ".vue"; ".svelte";
  (* Others *)
  ".gitignore"; ".gitattributes"; ".editorconfig"; "LICENSE"; "README"
]%string.

Definition IGNORED_PATTERNS : list jsstring := JS.lit <$> [
  (* Version control *)
  "/.git/";
  (* Node modules *)
  "/node_modules/";
  (* Python virtual environments *)
  "/venv/"; "/.venv/"; "/env/"; "/.env/";
  (* Python caches *)
  "/__pycache__/"; "/.pytest_cache/"; "/.mypy_cache/";
  (* Build outputs *)
  "/dist/"; "/build/"; "/out/"; "/target/"; "/bin/";
  (* IDE / Editor specific *)
  "/.vscode/"; "/.idea/"; "/.project/"; "/.classpath/"; "/.settings/";
  (* OS specific *)
  ".DS_Store"; "Thumbs.db";
  (* Log files *)
  "*.log";
  (* Archives / Compressed *)
  "*.zip"; "*.tar"; "*.gz"; "*.rar"; "*.7z";
  (* Compiled / Binary *)
  "*.exe"; "*.dll"; "*.so"; "*.o"; "*.a"; "*.lib"; "*.class"; "*.pyc"; "*.pyo"; "*.wasm";
  (* Media files *)
  "*.png"; "*.jpg"; "*.jpeg"; "*.gif"; "*.bmp"; "*.tiff"; "*.ico"; "*.webp";
  "*.mp3"; "*.wav"; ".ogg"; "*.mp4"; "*.mov"; "*.avi"; "*.webm"; "*.flv";
  "*.pdf"; "*.doc"; "*.docx"; "*.ppt"; "*.pptx"; "*.xls"; "*.xlsx";
  "*.dmg"; "*.iso"; "*.img";
  (* Fonts *)
  "*.woff"; "*.woff2"; "*.ttf"; "*.otf"; "*.eot";
  (* Database files *)
  "*.sqlite"; "*.db"; "*.mdb";
  (* Large data files *)
  "*.csv";
  (* Temporary files *)
  "*.tmp"; "*.temp"; "*.swp"; "*.swo"
]%string.

Definition MAX_FILE_SIZE_BYTES : N := 2 * 1024 * 1024.
Definition MAX_TOTAL_FILES : nat := 500.

(** The outcome of [shouldIgnoreFile]: [{ ignore: boolean, reason?: string }]. *)
Record Verdict := { ignore : bool; reason : option jsstring }.

(** The five reason texts of the file, as their template literals build them. *)
Definition reason_size (fileSize : N) : jsstring :=
  JS.lit "File size " ++ JS.show (JS.round_div fileSize (1024 * 1024))
  ++ JS.lit "MB > " ++ JS.show (JS.round_div MAX_FILE_SIZE_BYTES (1024 * 1024))
  ++ JS.lit "MB limit".

Definition reason_pattern (pattern : jsstring) : jsstring :=
  JS.lit "Matches ignore pattern: " ++ pattern.

Definition reason_no_extension (bare : jsstring) : jsstring :=
  JS.lit "No extension and '" ++ bare ++ JS.lit "' not in allowed filenames list".

Definition reason_extension (ext : jsstring) : jsstring :=
  JS.lit "Extension '" ++ ext ++ JS.lit "' not in allowed list".

Definition reason_unreadable : jsstring :=
  JS.lit "Could not read as text (binary?)".

(** [ALLOWED_EXTENSIONS_AND_FILENAMES.includes(x)] *)
Definition allowed (x : jsstring) : bool :=
  bool_decide (x ∈ ALLOWED_EXTENSIONS_AND_FILENAMES).

Section Filter.

Variable toLowerCase : jsstring -> jsstring.

Definition matchesPattern (path pattern : jsstring) : bool :=
  if JS.startsWith pattern (JS.lit "/") && JS.endsWith pattern (JS.lit "/") then
    JS.includes (JS.lit "/" ++ path ++ JS.lit "/") pattern
  else if JS.startsWith pattern (JS.lit "*.") then
    JS.endsWith (toLowerCase path) (toLowerCase (JS.substring pattern 1))
  else
    JS.endsWith (toLowerCase path) (toLowerCase pattern).

Definition BARE_FILENAME (normalizedFilePath : jsstring) : jsstring :=
  if JS.includes normalizedFilePath (JS.lit "/")
  then JS.substring normalizedFilePath (JS.lastIndexOf normalizedFilePath JS.slash + 1)
  else normalizedFilePath.

Definition EXTENSION (bare : jsstring) : jsstring :=
  if JS.includes bare (JS.lit ".")
  then toLowerCase (JS.substring bare (JS.lastIndexOf bare JS.dot))
  else [].

(** The allow-list part of [shouldIgnoreFile] (its lines after the loop). *)
Definition allow_list_verdict (normalizedFilePath : jsstring) : Verdict :=
  let bare := BARE_FILENAME normalizedFilePath in
  let ext := EXTENSION bare in
  if allowed bare || allowed ext then
    {| ignore := false; reason := None |}
  else if negb (JS.truthy ext) && negb (allowed bare) then
    {| ignore := true; reason := Some (reason_no_extension bare) |}
  else if JS.truthy ext && negb (allowed ext) then
    {| ignore := true; reason := Some (reason_extension ext) |}
  else
    {| ignore := false; reason := None |}.

(** [shouldIgnoreFile], over a given pattern list and allow-list stage so
    that the order of the checks can be stated; the program's function is
    the instance below. *)
Definition shouldIgnoreFile_with
    (patterns : list jsstring) (allow_stage : jsstring -> Verdict)
    (filePath : jsstring) (fileSize : N) : Verdict :=
  let normalizedFilePath := JS.replace_backslashes filePath in
  if (MAX_FILE_SIZE_BYTES <? fileSize)%N then
    {| ignore := true; reason := Some (reason_size fileSize) |}
  else
    match List.find (matchesPattern normalizedFilePath) patterns with
    | Some pattern => {| ignore := true; reason := Some (reason_pattern pattern) |}
    | None => allow_stage normalizedFilePath
    end.

Definition shouldIgnoreFile : jsstring -> N -> Verdict :=
  shouldIgnoreFile_with IGNORED_PATTERNS allow_list_verdict.

(** A browser [File]: its relative path, its name, its size, and what
    [await file.text()] yields ([None] when the promise rejects). *)
Record File := {
  file_webkitRelativePath : jsstring;
  file_name : jsstring;
  file_size : N;
  file_text : option jsstring
}.

(** The variables the loop of [handleFileChange] updates. *)
Record LoopState := {
  projectFiles : list ProjectFile;
  processedFileCount : nat;
  skippedFileCount : nat;
  skippedReasons : gmap (list N) nat;
  console_error : list jsstring
}.

Definition loop_init : LoopState :=
  {| projectFiles := []; processedFileCount := 0; skippedFileCount := 0;
     skippedReasons := ∅; console_error := [] |}.

(** [skippedReasons[r] = (skippedReasons[r] || 0) + 1].  The keys are the
    reason texts, which all begin with one of five fixed phrases, so none is
    a property the object inherits. *)
Definition bump (r : jsstring) (m : gmap (list N) nat) : gmap (list N) nat :=
  <[r := default 0 (m !! r) + 1]> m.

Definition filePath_of (file : File) : jsstring :=
  if JS.truthy (file_webkitRelativePath file)
  then file_webkitRelativePath file else file_name file.

(** One iteration of [for (const file of filesToProcess)]. *)
Definition loop_body (st : LoopState) (file : File) : LoopState :=
  let filePath := filePath_of file in
  let v := shouldIgnoreFile filePath (file_size file) in
  if ignore v then
    {| projectFiles := projectFiles st;
       processedFileCount := processedFileCount st;
       skippedFileCount := S (skippedFileCount st);
       skippedReasons :=
         match reason v with
         | Some r => if JS.truthy r then bump r (skippedReasons st) else skippedReasons st
         | None => skippedReasons st
         end;
       console_error := console_error st |}
  else
    match file_text file with
    | Some text =>
        {| projectFiles := projectFiles st ++ [{| path := filePath; content := text |}];
           processedFileCount := S (processedFileCount st);
           skippedFileCount := skippedFileCount st;
           skippedReasons := skippedReasons st;
           console_error := console_error st |}
    | None =>
        {| projectFiles := projectFiles st;
           processedFileCount := processedFileCount st;
           skippedFileCount := S (skippedFileCount st);
           skippedReasons := bump reason_unreadable (skippedReasons st);
           console_error := console_error st ++
             [JS.lit "Could not read file " ++ filePath ++ JS.lit " as text:"] |}
    end.

Definition run_loop (filesToProcess : list File) : LoopState :=
  foldl loop_body loop_init filesToProcess.

(** What one run of [handleFileChange] leaves behind: the call of
    [onFilesSelected], the last value given to each state setter, the
    console output, and the loop's variables (the initial ones when the
    selection is empty and the loop is not reached). *)
Record Outcome := {
  onFilesSelected_files : list ProjectFile;
  onFilesSelected_folder : option jsstring;
  selectedFolderName : option jsstring;
  fileSummary : jsstring;
  error : option jsstring;
  console_warn : list jsstring;
  loop : LoopState
}.

Definition show_nat (n : nat) : jsstring := JS.show (N.of_nat n).

Definition too_many_warning (total : nat) : jsstring :=
  JS.lit "Too many files selected (" ++ show_nat total
  ++ JS.lit "). Processing the first " ++ show_nat MAX_TOTAL_FILES ++ JS.lit ".".

Definition too_many_error (total : nat) : jsstring :=
  JS.lit "Processing the first " ++ show_nat MAX_TOTAL_FILES
  ++ JS.lit " files out of " ++ show_nat total ++ JS.lit ". Some files were ignored.".

Definition summary_of (st : LoopState) : jsstring :=
  show_nat (processedFileCount st) ++ JS.lit " file(s) collected."
  ++ (if (0 <? skippedFileCount st)%nat
      then JS.lit " " ++ show_nat (skippedFileCount st) ++ JS.lit " file(s) skipped."
      else []).

(** [handleFileChange]; [htmlFiles] is [event.target.files], [None] for
    [null]. *)
Definition handleFileChange (htmlFiles : option (list File)) : Outcome :=
  match htmlFiles with
  | None | Some [] =>
      {| onFilesSelected_files := []; onFilesSelected_folder := None;
         selectedFolderName := None; fileSummary := []; error := None;
         console_warn := []; loop := loop_init |}
  | Some ((first :: _) as files) =>
      let folderName :=
        if JS.truthy (file_webkitRelativePath first)
        then JS.split_head (file_webkitRelativePath first) JS.slash
        else JS.lit "Selected_Files" in
      let filesToProcess := take MAX_TOTAL_FILES files in
      let too_many := (MAX_TOTAL_FILES <? length files)%nat in
      let st := run_loop filesToProcess in
      let none_collected := (length (projectFiles st) =? 0)%nat in
      let all_skipped := none_collected && (0 <? length filesToProcess)%nat in
      {| onFilesSelected_files := projectFiles st;
         onFilesSelected_folder := Some folderName;
         selectedFolderName := Some folderName;
         fileSummary := summary_of st;
         error :=
           if all_skipped then
             Some (JS.lit "No reviewable files found. Check file types or ignored patterns.")
           else if none_collected && (length filesToProcess =? 0)%nat then
             Some (JS.lit "No files selected or folder is empty.")
           else if too_many then Some (too_many_error (length files))
           else None;
         console_warn :=
           (if too_many then [too_many_warning (length files)] else [])
           ++ (if all_skipped && negb (bool_decide (skippedReasons st = ∅))
               then [JS.lit "Reasons for skipping all files:"] else []);
         loop := st |}
  end.

End Filter.

(** ** services/geminiService.ts *)

Definition nl : jsstring := [10%N].

Definition model : jsstring := JS.lit "gemini-2.5-flash-preview-04-17".

Definition MAX_CONTENT_LENGTH_BYTES : N := 3800000.

(** The argument of [ai.models.generateContent]. *)
Record Request := {
  req_model : jsstring;
  req_contents : jsstring;
  req_systemInstruction : jsstring
}.

(** What a [catch] clause may receive: an [Error] with its message, or any
    other value. *)
Inductive Thrown :=
| ThrownError (message : jsstring)
| ThrownOther.

(** The observable effects of one call, in order. *)
Inductive Event :=
| ConsoleWarn (msg : jsstring)
| ConsoleError (msg : jsstring)
| GenerateContent (r : Request).

(** How the returned promise settles.  The value it resolves to is the
    [text] of the service's response, which the SDK gives as
    [string | undefined]: [None] is [undefined]. *)
Inductive Settled :=
| Resolved (text : option jsstring)
| Rejected (message : jsstring).

Definition is_remote_call (e : Event) : bool :=
  match e with GenerateContent _ => true | _ => false end.

Definition remote_calls (trace : list Event) : nat :=
  length (filter (fun e => is_remote_call e = true) trace).

(** The template of one file inside [files.map(...)]. *)
Definition file_block (file : ProjectFile) : jsstring :=
  JS.lit "--- File Path: " ++ path file ++ JS.lit " ---" ++ nl
  ++ JS.lit "```" ++ nl ++ content file ++ nl ++ JS.lit "```" ++ nl
  ++ JS.lit "--- End of File: " ++ path file ++ JS.lit " ---" ++ nl ++ nl.

Definition combinedContent (files : list ProjectFile) (projectName : jsstring) : jsstring :=
  (JS.lit "Project Name: " ++ projectName ++ nl ++ nl)
  ++ concat (file_block <$> files).

Definition msg_no_api_key : jsstring :=
  JS.lit "Gemini API key is not configured. Please set the API_KEY environment variable.".

Definition msg_no_files : jsstring :=
  JS.lit "No files were provided for review. Please select a project with reviewable files.".

Definition KBRatio (currentContentLength : N) : jsstring :=
  JS.toFixed0_div currentContentLength 1024.

Definition LimitKB : jsstring := JS.toFixed0_div MAX_CONTENT_LENGTH_BYTES 1024.

Definition msg_too_large (currentContentLength : N) : jsstring :=
  JS.lit "The project content (" ++ KBRatio currentContentLength
  ++ JS.lit " KB) is too large and exceeds the processing limit of " ++ LimitKB
  ++ JS.lit " KB. " ++ JS.lit "Please try with a smaller project or select fewer files.".

Definition warn_too_large (currentContentLength : N) : jsstring :=
  JS.lit "Project content is very large (" ++ KBRatio currentContentLength
  ++ JS.lit " KB). Exceeds limit of " ++ LimitKB
  ++ JS.lit " KB. Review might fail or be incomplete.".

Definition msg_invalid_key : jsstring :=
  JS.lit "Invalid Gemini API Key. Please check your API_KEY environment variable.".

Definition msg_api_too_large : jsstring :=
  JS.lit "The project is too large to be processed by the API. Please try with a smaller selection of files.".

Definition msg_failed (message : jsstring) : jsstring :=
  JS.lit "Failed to get project review feedback: " ++ message.

Definition msg_unknown : jsstring :=
  JS.lit "An unknown error occurred while fetching project review feedback.".

Definition log_fetch_error : jsstring :=
  JS.lit "Error fetching project review from Gemini API:".

Section Review.

Variable toLowerCase : jsstring -> jsstring.
(** The review rubric sent as system instruction: a fixed text of the
    source on which no decision depends. *)
Variable SYSTEM_INSTRUCTION_PROJECT : jsstring.
(** [process.env.API_KEY]; [None] when undefined. *)
Variable API_KEY : option jsstring.
(** The remote service: the [text] of its response ([None] when the
    response has none), or what the call throws. *)
Variable generateContent : Request -> option jsstring + Thrown.

(** The [catch] clause. *)
Definition translate_failure (e : Thrown) : jsstring :=
  match e with
  | ThrownError message =>
      if JS.includes message (JS.lit "API key not valid") then msg_invalid_key
      else if (JS.includes message (JS.lit "400")
               || JS.includes (toLowerCase message) (JS.lit "bad request"))
              && (JS.includes (toLowerCase message) (JS.lit "payload size")
                  || JS.includes (toLowerCase message) (JS.lit "request entity too large"))
      then msg_api_too_large
      else msg_failed message
  | ThrownOther => msg_unknown
  end.

Definition api_key_missing : bool :=
  match API_KEY with
  | None => true
  | Some k => negb (JS.truthy k)
  end.

Definition getProjectReviewFeedback
    (files : list ProjectFile) (projectName : jsstring) : Settled * list Event :=
  if api_key_missing then (Rejected msg_no_api_key, [])
  else if (length files =? 0)%nat then (Rejected msg_no_files, [])
  else
    let combined := combinedContent files projectName in
    let currentContentLength := JS.utf8_length combined in
    if (MAX_CONTENT_LENGTH_BYTES <? currentContentLength)%N then
      (Rejected (msg_too_large currentContentLength),
       [ConsoleWarn (warn_too_large currentContentLength)])
    else
      let request :=
        {| req_model := model; req_contents := combined;
           req_systemInstruction := SYSTEM_INSTRUCTION_PROJECT |} in
      match generateContent request with
      | inl text => (Resolved text, [GenerateContent request])
      | inr e =>
          (Rejected (translate_failure e),
           [GenerateContent request; ConsoleError log_fetch_error])
      end.

End Review.

(** ** Reading a blob back *)

(** [strip_prefix p s]: what follows [p] when [s] starts with it. *)
Fixpoint strip_prefix (p s : jsstring) {struct p} : option jsstring :=
  match p, s with
  | [], _ => Some s
  | _ :: _, [] => None
  | b :: p', a :: s' => if (a =? b)%N then strip_prefix p' s' else None
  end.

(** [split_at_first d s]: the text before and after the first occurrence of
    [d] in [s]. *)
Fixpoint split_at_first (d s : jsstring) : option (jsstring * jsstring) :=
  match strip_prefix d s with
  | Some rest => Some ([], rest)
  | None =>
      match s with
      | [] => None
      | a :: s' =>
          match split_at_first d s' with
          | Some (before, rest) => Some (a :: before, rest)
          | None => None
          end
      end
  end.

(** The three pieces of framing that [file_block] writes around a path and
    a content: what opens a block, what follows the path, and what follows
    the content of the file at path [p]. *)
Definition open_marker : jsstring := JS.lit "--- File Path: ".
Definition path_close : jsstring := JS.lit " ---" ++ nl ++ JS.lit "```" ++ nl.
Definition content_close (p : jsstring) : jsstring :=
  nl ++ JS.lit "```" ++ nl ++ JS.lit "--- End of File: " ++ p ++ JS.lit " ---" ++ nl ++ nl.

(** Modelled from the spec: the block reader of [splitBlob] below, which the
    program does not have.  It reads blocks until the text is exhausted;
    [fuel] bounds the number of blocks. *)
Fixpoint split_blocks (fuel : nat) (s : jsstring) : option (list ProjectFile) :=
  match s with
  | [] => Some []
  | _ :: _ =>
      match fuel with
      | O => None
      | S fuel' =>
          s1 ← strip_prefix open_marker s;
          '(p, s2) ← split_at_first path_close s1;
          '(c, s3) ← split_at_first (content_close p) s2;
          rest ← split_blocks fuel' s3;
          Some ({| path := p; content := c |} :: rest)
      end
  end.

(** Modelled from the spec: the program has no reader for its own blob; the
    round-trip property of the specification speaks of splitting the blob
    "back on its file-delimiter markers".  [splitBlob] is that reader: it
    drops the header line up to the blank line, then reads one block after
    the other, each from its opening marker to the closing marker that
    repeats its path. *)
Definition splitBlob (blob : jsstring) : option (list ProjectFile) :=
  s ← strip_prefix (JS.lit "Project Name: ") blob;
  '(_, body) ← split_at_first (nl ++ nl) s;
  split_blocks (length body) body.

(** A field [a] written before its terminator [d] is read back whole when
    the first occurrence of [d] in [a ++ d] is the one at the end. *)
Definition ends_at_first (d a : jsstring) : Prop :=
  split_at_first d (a ++ d) = Some (a, []).

Definition well_framed (file : ProjectFile) : Prop :=
  ends_at_first path_close (path file)
  /\ ends_at_first (content_close (path file)) (content file).

(** ** Vocabulary of the statements *)

(** What one file contributes to the collected list: its path and text when
    [shouldIgnoreFile] lets it through and it can be read. *)
Definition admitted (toLowerCase : jsstring -> jsstring) (file : File) : option ProjectFile :=
  if ignore (shouldIgnoreFile toLowerCase (filePath_of file) (file_size file)) then None
  else match file_text file with
       | Some text => Some {| path := filePath_of file; content := text |}
       | None => None
       end.

(** The number of skip records a ledger holds: the sum of its counters. *)
Definition ledger_total (m : gmap (list N) nat) : nat :=
  map_fold (fun _ n acc => n + acc) 0 m.

Definition skip (r : jsstring) : Verdict := {| ignore := true; reason := Some r |}.
Definition accept : Verdict := {| ignore := false; reason := None |}.

(** The slash-wrapped path that directory patterns are tested against. *)
Definition wrapped (normalizedFilePath : jsstring) : jsstring :=
  JS.lit "/" ++ normalizedFilePath ++ JS.lit "/".

(** A descriptor for concrete runs: a relative path, a size, and the text
    the file yields, if any. *)
Definition sample_file (p : string) (sz : N) (text : option string) : File :=
  {| file_webkitRelativePath := JS.lit p; file_name := []; file_size := sz;
     file_text := JS.lit <$> text |}.

(** A descriptor as the browser gives it for a file it can read: the size
    is the number of bytes and [text()] resolves with their decoding. *)
Definition readable_file (relativePath : string) (bytes : list N) : File :=
  {| file_webkitRelativePath := JS.lit relativePath; file_name := [];
     file_size := N.of_nat (length bytes);
     file_text := Some (JS.utf8_decode bytes) |}.

(** A project of one ASCII file of [n] bytes, to reach a given blob size. *)
Definition filler_file (n : N) : ProjectFile :=
  {| path := JS.lit "big.txt"; content := replicate (N.to_nat n) 97%N |}.

(** ** App.tsx *)

(** The state of the [App] component; [None] stands for [null] and for
    [undefined]. *)
Record AppState := {
  app_projectFiles : list ProjectFile;
  app_projectName : option jsstring;
  app_feedback : option jsstring;
  app_isLoading : bool;
  app_error : option jsstring
}.

(** [handleFilesSelected], the [onFilesSelected] callback given to
    [ProjectInput]. *)
Definition handleFilesSelected
    (st : AppState) (files : list ProjectFile) (folderName : option jsstring) : AppState :=
  {| app_projectFiles := files;
     app_projectName := folderName;
     app_feedback := None;
     app_isLoading := app_isLoading st;
     app_error := None |}.

Definition msg_select_project : jsstring :=
  JS.lit "Please select a project folder to review, or ensure it contains reviewable files.".

Definition log_review_error : jsstring := JS.lit "Review Error:".

(** [projectName || "Unnamed Project"] *)
Definition projectName_or_default (projectName : option jsstring) : jsstring :=
  match projectName with
  | Some n => if JS.truthy n then n else JS.lit "Unnamed Project"
  | None => JS.lit "Unnamed Project"
  end.

Section App.

Variable toLowerCase : jsstring -> jsstring.
Variable SYSTEM_INSTRUCTION_PROJECT : jsstring.
Variable API_KEY : option jsstring.
Variable generateContent : Request -> option jsstring + Thrown.

(** [handleReviewProject]: the state once the handler has finished, and the
    effects in order.  [setFeedback(review)] stores what the call resolved
    to, a text or [undefined].  [getProjectReviewFeedback] only ever throws
    [Error] objects, so the handler's branch for other thrown values is not
    reached. *)
Definition handleReviewProject (st : AppState) : AppState * list Event :=
  if (length (app_projectFiles st) =? 0)%nat then
    ({| app_projectFiles := app_projectFiles st;
        app_projectName := app_projectName st;
        app_feedback := None;
        app_isLoading := app_isLoading st;
        app_error := Some msg_select_project |}, [])
  else
    match getProjectReviewFeedback toLowerCase SYSTEM_INSTRUCTION_PROJECT API_KEY
            generateContent (app_projectFiles st)
            (projectName_or_default (app_projectName st)) with
    | (Resolved review, trace) =>
        ({| app_projectFiles := app_projectFiles st;
            app_projectName := app_projectName st;
            app_feedback := review;
            app_isLoading := false;
            app_error := None |}, trace)
    | (Rejected message, trace) =>
        ({| app_projectFiles := app_projectFiles st;
            app_projectName := app_projectName st;
            app_feedback := None;
            app_isLoading := false;
            app_error := Some message |}, trace ++ [ConsoleError log_review_error])
    end.

(** A folder selection followed by a click on the review button: the
    [onFilesSelected] call of [handleFileChange] reaches [App] through
    [handleFilesSelected]. *)
Definition select_then_review (st : AppState) (htmlFiles : option (list File))
    : AppState * list Event :=
  let out := handleFileChange toLowerCase htmlFiles in
  handleReviewProject
    (handleFilesSelected st (onFilesSelected_files out) (onFilesSelected_folder out)).

End App.

(** ** More vocabulary *)

(** [p.split('/')]: the segments of a path. *)
Fixpoint segments (p : jsstring) : list jsstring :=
  match p with
  | [] => [[]]
  | c :: p' =>
      if (c =? JS.slash)%N then [] :: segments p'
      else match segments p' with
           | s :: rest => (c :: s) :: rest
           | [] => [[c]]
           end
  end.

(** The UTF-8 size of one block of the blob and of the whole blob, from the
    sizes of the texts put into them. *)
Definition block_size (file : ProjectFile) : N :=
  52 + 2 * JS.utf8_length (path file) + JS.utf8_length (content file).

Definition blob_size (files : list ProjectFile) (projectName : jsstring) : N :=
  16 + JS.utf8_length projectName + foldr (fun file acc => block_size file + acc)%N 0%N files.

(** The requests sent to the service, in order. *)
Definition requests (trace : list Event) : list Request :=
  omap (fun e => match e with GenerateContent r => Some r | _ => None end) trace.

(** * Properties *)

(** ** The string primitives *)

Lemma startsWith_app (p r : jsstring) : JS.startsWith (p ++ r) p = true.
Proof.
  induction p as [|b p IH]; simpl; [done|].
  by rewrite N.eqb_refl, IH.
Qed.

Lemma startsWith_inv (s p : jsstring) :
  JS.startsWith s p = true -> exists r, s = p ++ r.
Proof.
  revert s. induction p as [|b p IH]; intros s H; simpl in *.
  - by exists s.
  - destruct s as [|a s]; [done|].
    apply andb_true_iff in H as [Hab Hs].
    apply N.eqb_eq in Hab as ->.
    destruct (IH _ Hs) as [r ->]. by exists r.
Qed.

Lemma includes_at_start (s p : jsstring) :
  JS.startsWith s p = true -> JS.includes s p = true.
Proof. intros H. destruct s; simpl; by rewrite H. Qed.

Lemma includes_intro (a p b : jsstring) : JS.includes (a ++ p ++ b) p = true.
Proof.
  induction a as [|x a IH]; simpl.
  - apply includes_at_start, startsWith_app.
  - rewrite IH. apply orb_true_r.
Qed.

Lemma includes_inv (s p : jsstring) :
  JS.includes s p = true -> exists a b, s = a ++ p ++ b.
Proof.
  induction s as [|x s IH]; simpl; intros H.
  - rewrite orb_false_r in H. apply startsWith_inv in H as [r ->].
    by exists [], r.
  - apply orb_true_iff in H as [H|H].
    + apply startsWith_inv in H as [r ->]. by exists [], r.
    + destruct (IH H) as (a & b & ->). by exists (x :: a), b.
Qed.

Lemma includes_widen (x s y p : jsstring) :
  JS.includes s p = true -> JS.includes (x ++ s ++ y) p = true.
Proof.
  intros (a & b & ->)%includes_inv.
  replace (x ++ (a ++ p ++ b) ++ y) with ((x ++ a) ++ p ++ (b ++ y))
    by (by rewrite <- !app_assoc).
  apply includes_intro.
Qed.

Lemma endsWith_intro (a p : jsstring) : JS.endsWith (a ++ p) p = true.
Proof. unfold JS.endsWith. rewrite reverse_app. apply startsWith_app. Qed.

Lemma endsWith_inv (s p : jsstring) :
  JS.endsWith s p = true -> exists a, s = a ++ p.
Proof.
  unfold JS.endsWith. intros [r Hr]%startsWith_inv.
  exists (reverse r). apply (inj reverse). by rewrite reverse_app, reverse_involutive.
Qed.

Lemma lastIndexOf_from_absent (c : N) (s : jsstring) (i acc : Z) :
  c ∉ s -> JS.lastIndexOf_from c s i acc = acc.
Proof.
  revert i acc. induction s as [|a s IH]; intros i acc Hc; simpl; [done|].
  apply not_elem_of_cons in Hc as [Hne Hc].
  rewrite IH by done.
  destruct (N.eqb_spec a c); congruence.
Qed.

Lemma lastIndexOf_from_last (c : N) (a b : jsstring) (i acc : Z) :
  c ∉ b -> JS.lastIndexOf_from c (a ++ c :: b) i acc = (i + Z.of_nat (length a))%Z.
Proof.
  revert i acc. induction a as [|x a IH]; intros i acc Hc; simpl.
  - rewrite N.eqb_refl, lastIndexOf_from_absent by done. lia.
  - rewrite IH by done. lia.
Qed.

Lemma lastIndexOf_last (c : N) (a b : jsstring) :
  c ∉ b -> JS.lastIndexOf (a ++ c :: b) c = Z.of_nat (length a).
Proof. intros Hc. unfold JS.lastIndexOf. rewrite lastIndexOf_from_last; done. Qed.

Lemma includes_unit (s : jsstring) (c : N) : JS.includes s [c] = bool_decide (c ∈ s).
Proof.
  induction s as [|a s IH]; simpl; [done|].
  rewrite IH, andb_true_r.
  destruct (N.eqb_spec a c) as [->|Hne]; simpl.
  - symmetry. apply bool_decide_eq_true. left.
  - apply bool_decide_ext. rewrite elem_of_cons.
    split; [by right | intros [Heq|Hin]; [congruence | done]].
Qed.

Lemma replace_backslashes_app (a b : jsstring) :
  JS.replace_backslashes (a ++ b) = JS.replace_backslashes a ++ JS.replace_backslashes b.
Proof. apply fmap_app. Qed.

(** ** [matchesPattern] and [shouldIgnoreFile] *)

Section FilterFacts.

Variable toLowerCase : jsstring -> jsstring.

Lemma matchesPattern_directory (p pattern : jsstring) :
  JS.startsWith pattern (JS.lit "/") && JS.endsWith pattern (JS.lit "/") = true ->
  matchesPattern toLowerCase p pattern = JS.includes (wrapped p) pattern.
Proof. intros H. unfold matchesPattern. by rewrite H. Qed.

Lemma shouldIgnoreFile_oversized patterns allow_stage filePath fileSize :
  (MAX_FILE_SIZE_BYTES < fileSize)%N ->
  shouldIgnoreFile_with toLowerCase patterns allow_stage filePath fileSize
  = skip (reason_size fileSize).
Proof.
  intros H. unfold shouldIgnoreFile_with.
  apply N.ltb_lt in H. by rewrite H.
Qed.

Lemma shouldIgnoreFile_sized patterns allow_stage filePath fileSize :
  (fileSize <= MAX_FILE_SIZE_BYTES)%N ->
  shouldIgnoreFile_with toLowerCase patterns allow_stage filePath fileSize
  = match List.find (matchesPattern toLowerCase (JS.replace_backslashes filePath)) patterns with
    | Some pattern => skip (reason_pattern pattern)
    | None => allow_stage (JS.replace_backslashes filePath)
    end.
Proof.
  intros H. unfold shouldIgnoreFile_with.
  apply N.ltb_ge in H. by rewrite H.
Qed.

(** The first match of a list whose front part holds a match lies in that
    front part. *)
Lemma find_in_front {A} (f : A -> bool) (front back : list A) (x : A) :
  x ∈ front -> f x = true ->
  exists y, List.find f (front ++ back) = Some y /\ y ∈ front /\ f y = true.
Proof.
  induction front as [|a front IH]; intros Hx Hf; [by apply elem_of_nil in Hx|].
  simpl. destruct (f a) eqn:Ea.
  - exists a. split_and!; [done| left | done].
  - apply elem_of_cons in Hx as [->|Hx]; [congruence|].
    destruct (IH Hx Hf) as (y & Hy & Hin & Hfy).
    exists y. split_and!; [done| by right | done].
Qed.

(** Every verdict that skips carries a non-empty reason. *)
Lemma shouldIgnoreFile_reason filePath fileSize :
  ignore (shouldIgnoreFile toLowerCase filePath fileSize) = true ->
  exists r, reason (shouldIgnoreFile toLowerCase filePath fileSize) = Some r
            /\ JS.truthy r = true.
Proof.
  unfold shouldIgnoreFile, shouldIgnoreFile_with.
  destruct (MAX_FILE_SIZE_BYTES <? fileSize)%N; [by eexists|].
  destruct (List.find _ _); [by eexists|].
  unfold allow_list_verdict.
  repeat (match goal with |- context [if ?b then _ else _] => destruct b end);
    simpl; try done; by eexists.
Qed.

End FilterFacts.

Lemma reason_size_not_pattern (fileSize : N) (pattern : jsstring) :
  reason_size fileSize <> reason_pattern pattern.
Proof. unfold reason_size, reason_pattern. simpl. discriminate. Qed.

Example reason_size_3MiB : reason_size (3 * 1024 * 1024) = JS.lit "File size 3MB > 2MB limit".
Proof. reflexivity. Qed.

(** C1. A file of more than 2 MiB is skipped with the size reason, whatever
    its name: the verdict of [shouldIgnoreFile] is the same for every pattern
    list and every allow-list stage put behind the size test, so neither is
    consulted; the loop of [handleFileChange] then counts the file as skipped
    under that reason and collects nothing. *)
Theorem size_cap_precedes_all_checks
    (toLowerCase : jsstring -> jsstring) (filePath : jsstring) (fileSize : N) :
  (MAX_FILE_SIZE_BYTES < fileSize)%N ->
  (forall patterns allow_stage,
      shouldIgnoreFile_with toLowerCase patterns allow_stage filePath fileSize
      = skip (reason_size fileSize))
  /\ shouldIgnoreFile toLowerCase filePath fileSize = skip (reason_size fileSize)
  /\ (forall st file,
        filePath_of file = filePath -> file_size file = fileSize ->
        loop_body toLowerCase st file
        = {| projectFiles := projectFiles st;
             processedFileCount := processedFileCount st;
             skippedFileCount := S (skippedFileCount st);
             skippedReasons := bump (reason_size fileSize) (skippedReasons st);
             console_error := console_error st |}).
Proof.
  intros Hbig. split_and!.
  - intros. by apply shouldIgnoreFile_oversized.
  - by apply shouldIgnoreFile_oversized.
  - intros st file <- <-. unfold loop_body, shouldIgnoreFile.
    by rewrite shouldIgnoreFile_oversized.
Qed.

Lemma size_cap_precedes_all_checks_witness :
  shouldIgnoreFile JS.toLowerCase_ascii_only (JS.lit "src/app.ts") (2 * 1024 * 1024 + 1)
  = skip (JS.lit "File size 2MB > 2MB limit").
Proof.
  apply (size_cap_precedes_all_checks JS.toLowerCase_ascii_only
           (JS.lit "src/app.ts") (2 * 1024 * 1024 + 1)).
  reflexivity.
Defined.

(** C2, as amended. A file of at most 2 MiB whose normalized path contains
    [/node_modules/], or whose slash-wrapped path does, is skipped with the
    ignore-pattern reason; the reason names the first pattern of the list
    that matches, which is [/.git/] when the path also has a [.git] segment
    and [/node_modules/] otherwise.  At any size the file is skipped. *)
Theorem node_modules_ignored
    (toLowerCase : jsstring -> jsstring) (filePath : jsstring) (fileSize : N) :
  (fileSize <= MAX_FILE_SIZE_BYTES)%N ->
  JS.includes (JS.replace_backslashes filePath) (JS.lit "/node_modules/") = true
  \/ JS.includes (wrapped (JS.replace_backslashes filePath)) (JS.lit "/node_modules/") = true ->
  shouldIgnoreFile toLowerCase filePath fileSize
  = skip (reason_pattern
            (if JS.includes (wrapped (JS.replace_backslashes filePath)) (JS.lit "/.git/")
             then JS.lit "/.git/" else JS.lit "/node_modules/"))
  /\ forall anySize, ignore (shouldIgnoreFile toLowerCase filePath anySize) = true.
Proof.
  intros Hsize Hin.
  assert (Hw : JS.includes (wrapped (JS.replace_backslashes filePath))
                 (JS.lit "/node_modules/") = true).
  { destruct Hin as [Hin|Hin]; [|done]. by apply includes_widen. }
  assert (Hfind : List.find (matchesPattern toLowerCase (JS.replace_backslashes filePath))
                    IGNORED_PATTERNS
                  = Some (if JS.includes (wrapped (JS.replace_backslashes filePath))
                               (JS.lit "/.git/")
                          then JS.lit "/.git/" else JS.lit "/node_modules/")).
  { unfold IGNORED_PATTERNS. rewrite !fmap_cons. cbn [List.find].
    rewrite !matchesPattern_directory by reflexivity.
    rewrite Hw. by destruct (JS.includes _ (JS.lit "/.git/")). }
  split.
  - unfold shouldIgnoreFile. rewrite shouldIgnoreFile_sized by done. by rewrite Hfind.
  - intros anySize. unfold shouldIgnoreFile, shouldIgnoreFile_with.
    destruct (MAX_FILE_SIZE_BYTES <? anySize)%N; [done|]. by rewrite Hfind.
Qed.

Lemma node_modules_ignored_witness :
  shouldIgnoreFile JS.toLowerCase_ascii_only (JS.lit "node_modules/x/y.js") 50
  = skip (JS.lit "Matches ignore pattern: /node_modules/").
Proof.
  apply (node_modules_ignored JS.toLowerCase_ascii_only (JS.lit "node_modules/x/y.js") 50).
  - vm_compute. discriminate.
  - right. reflexivity.
Defined.

(** C2 as stated fails above the size cap: the size test comes first and
    gives its own reason. *)
Lemma node_modules_oversized_counterexample :
  JS.includes (JS.replace_backslashes (JS.lit "app/node_modules/pkg/index.js"))
    (JS.lit "/node_modules/") = true
  /\ shouldIgnoreFile JS.toLowerCase_ascii_only
       (JS.lit "app/node_modules/pkg/index.js") (3 * 1024 * 1024)
     = skip (JS.lit "File size 3MB > 2MB limit")
  /\ forall pattern, JS.lit "File size 3MB > 2MB limit" <> reason_pattern pattern.
Proof.
  split_and!; [reflexivity | reflexivity |].
  intros pattern. apply (reason_size_not_pattern (3 * 1024 * 1024)).
Qed.

Lemma final_segment_matches (toLowerCase : jsstring -> jsstring) (dir seg : jsstring) :
  matchesPattern toLowerCase seg (wrapped seg) = true
  /\ matchesPattern toLowerCase (dir ++ JS.lit "/" ++ seg) (wrapped seg) = true.
Proof.
  assert (Hdir : JS.startsWith (wrapped seg) (JS.lit "/")
                 && JS.endsWith (wrapped seg) (JS.lit "/") = true).
  { apply andb_true_iff. split; [reflexivity|].
    unfold wrapped. rewrite app_assoc. apply endsWith_intro. }
  split; rewrite matchesPattern_directory by done.
  - rewrite <- (app_nil_r (wrapped seg)) at 1.
    apply (includes_intro [] (wrapped seg) []).
  - replace (wrapped (dir ++ JS.lit "/" ++ seg))
      with ((JS.lit "/" ++ dir) ++ wrapped seg ++ []).
    + apply includes_intro.
    + unfold wrapped. by rewrite app_nil_r, <- !app_assoc.
Qed.

(** C10, as amended. A directory pattern matches every path whose final
    segment is the ignored name, so it also catches regular files.  A file named
    [.env] or [env] of at most 2 MiB is skipped with the ignore-pattern
    reason: at the root the reason names [/.env/], respectively [/env/]; at
    any depth it names the first of the six leading directory patterns that
    matches the path. *)
Theorem env_file_ignored_as_final_segment
    (toLowerCase : jsstring -> jsstring) (dir seg : jsstring) (fileSize : N) :
  seg = JS.lit ".env" \/ seg = JS.lit "env" ->
  (fileSize <= MAX_FILE_SIZE_BYTES)%N ->
  (forall anyDir anySeg,
      matchesPattern toLowerCase anySeg (wrapped anySeg) = true
      /\ matchesPattern toLowerCase (anyDir ++ JS.lit "/" ++ anySeg) (wrapped anySeg) = true)
  /\ shouldIgnoreFile toLowerCase seg fileSize = skip (reason_pattern (wrapped seg))
  /\ exists pattern,
       pattern ∈ take 6 IGNORED_PATTERNS
       /\ matchesPattern toLowerCase
            (JS.replace_backslashes (dir ++ JS.lit "/" ++ seg)) pattern = true
       /\ shouldIgnoreFile toLowerCase (dir ++ JS.lit "/" ++ seg) fileSize
          = skip (reason_pattern pattern).
Proof.
  intros Hseg Hsize.
  split_and!; [intros anyDir anySeg; apply final_segment_matches | |].
  - unfold shouldIgnoreFile. rewrite shouldIgnoreFile_sized by done.
    destruct Hseg as [-> | ->]; reflexivity.
  - assert (Hnorm : JS.replace_backslashes (dir ++ JS.lit "/" ++ seg)
                    = JS.replace_backslashes dir ++ JS.lit "/" ++ seg).
    { rewrite !replace_backslashes_app. by destruct Hseg as [-> | ->]. }
    assert (Hin : wrapped seg ∈ take 6 IGNORED_PATTERNS).
    { apply list_elem_of_In. destruct Hseg as [-> | ->]; vm_compute; tauto. }
    destruct (find_in_front
                (matchesPattern toLowerCase (JS.replace_backslashes (dir ++ JS.lit "/" ++ seg)))
                (take 6 IGNORED_PATTERNS) (drop 6 IGNORED_PATTERNS) (wrapped seg))
      as (pattern & Hfind & Hfront & Hmatch); [done | | ].
    { rewrite Hnorm. apply final_segment_matches. }
    rewrite take_drop in Hfind.
    exists pattern. split_and!; [done | done |].
    unfold shouldIgnoreFile. rewrite shouldIgnoreFile_sized by done. by rewrite Hfind.
Qed.

Lemma env_file_ignored_as_final_segment_witness :
  shouldIgnoreFile JS.toLowerCase_ascii_only (JS.lit ".env") 120
  = skip (JS.lit "Matches ignore pattern: /.env/").
Proof.
  apply (env_file_ignored_as_final_segment JS.toLowerCase_ascii_only
           (JS.lit "config") (JS.lit ".env") 120).
  - left. reflexivity.
  - vm_compute. discriminate.
Defined.

Example env_file_in_subdirectory :
  shouldIgnoreFile JS.toLowerCase_ascii_only (JS.lit "services/api/env") 64
  = skip (JS.lit "Matches ignore pattern: /env/").
Proof. reflexivity. Qed.

(** C10 as stated fails above the size cap, where the reason is the size
    one and the patterns are not reached. *)
Lemma env_file_oversized_counterexample :
  shouldIgnoreFile JS.toLowerCase_ascii_only (JS.lit ".env") (3 * 1024 * 1024)
  = skip (JS.lit "File size 3MB > 2MB limit")
  /\ forall pattern, JS.lit "File size 3MB > 2MB limit" <> reason_pattern pattern.
Proof.
  split; [reflexivity|].
  intros pattern. apply (reason_size_not_pattern (3 * 1024 * 1024)).
Qed.

(** ** The allow-list stage *)

Section AllowListFacts.

Variable toLowerCase : jsstring -> jsstring.

Lemma BARE_FILENAME_nested (dir name : jsstring) :
  JS.slash ∉ name -> BARE_FILENAME (dir ++ JS.slash :: name) = name.
Proof.
  intros Hname. unfold BARE_FILENAME.
  change (JS.lit "/") with [JS.slash]. rewrite includes_unit.
  rewrite bool_decide_eq_true_2 by (apply elem_of_app; right; left).
  rewrite lastIndexOf_last by done. unfold JS.substring.
  replace (Z.to_nat (Z.of_nat (length dir) + 1)) with (length (dir ++ [JS.slash]))
    by (rewrite length_app; simpl; lia).
  rewrite (cons_middle JS.slash dir name), app_assoc.
  apply drop_app_length.
Qed.

Lemma BARE_FILENAME_flat (p : jsstring) : JS.slash ∉ p -> BARE_FILENAME p = p.
Proof.
  intros Hp. unfold BARE_FILENAME.
  change (JS.lit "/") with [JS.slash]. rewrite includes_unit.
  by rewrite bool_decide_eq_false_2.
Qed.

Lemma EXTENSION_last_dot (stem e : jsstring) :
  JS.dot ∉ e -> EXTENSION toLowerCase (stem ++ JS.dot :: e) = toLowerCase (JS.dot :: e).
Proof.
  intros He. unfold EXTENSION.
  change (JS.lit ".") with [JS.dot]. rewrite includes_unit.
  rewrite bool_decide_eq_true_2 by (apply elem_of_app; right; left).
  rewrite lastIndexOf_last by done. unfold JS.substring.
  by rewrite Nat2Z.id, drop_app_length.
Qed.

Lemma EXTENSION_no_dot (b : jsstring) : JS.dot ∉ b -> EXTENSION toLowerCase b = [].
Proof.
  intros Hb. unfold EXTENSION.
  change (JS.lit ".") with [JS.dot]. rewrite includes_unit.
  by rewrite bool_decide_eq_false_2.
Qed.

Lemma allow_list_verdict_cases (p : jsstring) :
  allow_list_verdict toLowerCase p
  = if allowed (BARE_FILENAME p) || allowed (EXTENSION toLowerCase (BARE_FILENAME p))
    then accept
    else if JS.truthy (EXTENSION toLowerCase (BARE_FILENAME p))
         then skip (reason_extension (EXTENSION toLowerCase (BARE_FILENAME p)))
         else skip (reason_no_extension (BARE_FILENAME p)).
Proof.
  unfold allow_list_verdict.
  destruct (allowed (BARE_FILENAME p)), (allowed (EXTENSION _ _)),
    (JS.truthy (EXTENSION _ _)); reflexivity.
Qed.

Hypothesis toLowerCase_ascii : JS.lowercases_ascii toLowerCase.

Lemma matchesPattern_ascii (p pattern : jsstring) :
  JS.is_ascii p -> JS.is_ascii pattern ->
  matchesPattern toLowerCase p pattern
  = matchesPattern JS.toLowerCase_ascii_only p pattern.
Proof.
  intros Hp Hpat. unfold matchesPattern, JS.toLowerCase_ascii_only.
  rewrite !toLowerCase_ascii; [done | done | | done].
  unfold JS.substring. by apply Forall_drop.
Qed.

Lemma find_pattern_ascii (p : jsstring) :
  JS.is_ascii p ->
  List.find (matchesPattern toLowerCase p) IGNORED_PATTERNS
  = List.find (matchesPattern JS.toLowerCase_ascii_only p) IGNORED_PATTERNS.
Proof.
  intros Hp.
  assert (Hpats : Forall JS.is_ascii IGNORED_PATTERNS).
  { unfold JS.is_ascii. apply (bool_decide_unpack _). by vm_compute. }
  induction Hpats as [|pattern rest Hpat _ IH]; [done|].
  simpl. by rewrite matchesPattern_ascii, IH.
Qed.

End AllowListFacts.

Ltac by_evaluation := apply (bool_decide_unpack _); by vm_compute.

Section AllowListRuns.

Variable toLowerCase : jsstring -> jsstring.
Hypothesis toLowerCase_ascii : JS.lowercases_ascii toLowerCase.

Lemma shouldIgnoreFile_ascii (filePath : jsstring) (fileSize : N) :
  JS.is_ascii filePath -> (fileSize <= MAX_FILE_SIZE_BYTES)%N ->
  shouldIgnoreFile toLowerCase filePath fileSize
  = match List.find (matchesPattern JS.toLowerCase_ascii_only
                       (JS.replace_backslashes filePath)) IGNORED_PATTERNS with
    | Some pattern => skip (reason_pattern pattern)
    | None => allow_list_verdict toLowerCase (JS.replace_backslashes filePath)
    end.
Proof.
  intros Hascii Hsize. unfold shouldIgnoreFile.
  rewrite shouldIgnoreFile_sized by done.
  rewrite find_pattern_ascii; [done | done |].
  unfold JS.replace_backslashes. apply Forall_fmap.
  eapply Forall_impl; [exact Hascii|].
  intros c Hc. simpl. by destruct (c =? JS.backslash)%N.
Qed.

Lemma README_accepted (fileSize : N) :
  (fileSize <= MAX_FILE_SIZE_BYTES)%N ->
  shouldIgnoreFile toLowerCase (JS.lit "README") fileSize = accept.
Proof.
  intros Hsize. rewrite shouldIgnoreFile_ascii; [|unfold JS.is_ascii; by_evaluation|done].
  reflexivity.
Qed.

Lemma NOTES_skipped (fileSize : N) :
  (fileSize <= MAX_FILE_SIZE_BYTES)%N ->
  shouldIgnoreFile toLowerCase (JS.lit "NOTES") fileSize
  = skip (JS.lit "No extension and 'NOTES' not in allowed filenames list").
Proof.
  intros Hsize. rewrite shouldIgnoreFile_ascii; [|unfold JS.is_ascii; by_evaluation|done].
  reflexivity.
Qed.

Lemma unknown_extension_skipped (fileSize : N) :
  (fileSize <= MAX_FILE_SIZE_BYTES)%N ->
  shouldIgnoreFile toLowerCase (JS.lit "src/notes.XYZ") fileSize
  = skip (JS.lit "Extension '.xyz' not in allowed list").
Proof.
  intros Hsize. rewrite shouldIgnoreFile_ascii; [|unfold JS.is_ascii; by_evaluation|done].
  change (List.find _ _) with (@None jsstring). cbv iota.
  rewrite allow_list_verdict_cases.
  assert (Hext : EXTENSION toLowerCase
                   (BARE_FILENAME (JS.replace_backslashes (JS.lit "src/notes.XYZ")))
                 = JS.lit ".xyz").
  { change (BARE_FILENAME _) with (JS.lit "notes" ++ JS.dot :: JS.lit "XYZ").
    rewrite EXTENSION_last_dot by by_evaluation.
    rewrite toLowerCase_ascii by (unfold JS.is_ascii; by_evaluation).
    reflexivity. }
  rewrite Hext. reflexivity.
Qed.

Lemma listed_name_wins (fileSize : N) :
  (fileSize <= MAX_FILE_SIZE_BYTES)%N ->
  shouldIgnoreFile toLowerCase (JS.lit "Cargo.lock") fileSize = accept.
Proof.
  intros Hsize. rewrite shouldIgnoreFile_ascii; [|unfold JS.is_ascii; by_evaluation|done].
  change (List.find _ _) with (@None jsstring). cbv iota.
  rewrite allow_list_verdict_cases.
  change (allowed (BARE_FILENAME _)) with true. reflexivity.
Qed.

End AllowListRuns.

(** C6. The allow-list stage takes the bare filename after the last [/] and
    the lower-cased extension from the last [.] of the bare filename (empty
    without a dot), accepts when either is an entry of the allow-list, and
    otherwise skips with the no-extension reason when the extension is empty
    and with the extension reason when it is not.  It is the verdict of
    [shouldIgnoreFile] for a file within the size cap that no ignore pattern
    matches.  [README] is accepted, [NOTES] is skipped for lack of an
    extension, and a file with an extension outside the list is skipped for
    its extension, unless its bare filename is listed ([Cargo.lock]). *)
Theorem allow_list_stage
    (toLowerCase : jsstring -> jsstring) (fileSize : N) :
  JS.lowercases_ascii toLowerCase ->
  (fileSize <= MAX_FILE_SIZE_BYTES)%N ->
  (forall dir name, JS.slash ∉ name -> BARE_FILENAME (dir ++ JS.slash :: name) = name)
  /\ (forall p, JS.slash ∉ p -> BARE_FILENAME p = p)
  /\ (forall stem e, JS.dot ∉ e ->
        EXTENSION toLowerCase (stem ++ JS.dot :: e) = toLowerCase (JS.dot :: e))
  /\ (forall b, JS.dot ∉ b -> EXTENSION toLowerCase b = [])
  /\ (forall p,
        allow_list_verdict toLowerCase p
        = if allowed (BARE_FILENAME p) || allowed (EXTENSION toLowerCase (BARE_FILENAME p))
          then accept
          else if JS.truthy (EXTENSION toLowerCase (BARE_FILENAME p))
               then skip (reason_extension (EXTENSION toLowerCase (BARE_FILENAME p)))
               else skip (reason_no_extension (BARE_FILENAME p)))
  /\ (forall filePath,
        List.find (matchesPattern toLowerCase (JS.replace_backslashes filePath))
          IGNORED_PATTERNS = None ->
        shouldIgnoreFile toLowerCase filePath fileSize
        = allow_list_verdict toLowerCase (JS.replace_backslashes filePath))
  /\ (forall p, BARE_FILENAME p = JS.lit "README" ->
        allow_list_verdict toLowerCase p = accept)
  /\ (forall p, BARE_FILENAME p = JS.lit "NOTES" ->
        allow_list_verdict toLowerCase p = skip (reason_no_extension (JS.lit "NOTES")))
  /\ shouldIgnoreFile toLowerCase (JS.lit "README") fileSize = accept
  /\ shouldIgnoreFile toLowerCase (JS.lit "NOTES") fileSize
     = skip (JS.lit "No extension and 'NOTES' not in allowed filenames list")
  /\ shouldIgnoreFile toLowerCase (JS.lit "src/notes.XYZ") fileSize
     = skip (JS.lit "Extension '.xyz' not in allowed list")
  /\ shouldIgnoreFile toLowerCase (JS.lit "Cargo.lock") fileSize = accept.
Proof.
  intros Hlow Hsize. split_and!.
  - apply BARE_FILENAME_nested.
  - apply BARE_FILENAME_flat.
  - apply EXTENSION_last_dot.
  - apply EXTENSION_no_dot.
  - apply allow_list_verdict_cases.
  - intros filePath Hnone. unfold shouldIgnoreFile.
    rewrite shouldIgnoreFile_sized by done. by rewrite Hnone.
  - intros p Hbare. rewrite allow_list_verdict_cases, Hbare. reflexivity.
  - intros p Hbare. rewrite allow_list_verdict_cases, Hbare. reflexivity.
  - by apply README_accepted.
  - by apply NOTES_skipped.
  - by apply unknown_extension_skipped.
  - by apply listed_name_wins.
Qed.

Lemma toLowerCase_ascii_only_ok : JS.lowercases_ascii JS.toLowerCase_ascii_only.
Proof. intros s _. reflexivity. Qed.

Lemma allow_list_stage_witness :
  shouldIgnoreFile JS.toLowerCase_ascii_only (JS.lit "README") 30 = accept
  /\ BARE_FILENAME (JS.lit "docs/guide/README") = JS.lit "README"
  /\ EXTENSION JS.toLowerCase_ascii_only (JS.lit "Main.PY") = JS.lit ".py".
Proof.
  destruct (allow_list_stage JS.toLowerCase_ascii_only 30)
    as (Hbare & _ & Hext & _ & _ & _ & _ & _ & Hreadme & _).
  - exact toLowerCase_ascii_only_ok.
  - vm_compute. discriminate.
  - split_and!.
    + exact Hreadme.
    + apply (Hbare (JS.lit "docs/guide") (JS.lit "README")). by_evaluation.
    + apply (Hext (JS.lit "Main") (JS.lit "PY")). by_evaluation.
Defined.

(** ** The loop of [handleFileChange] *)

Lemma ledger_total_bump (r : jsstring) (m : gmap (list N) nat) :
  ledger_total (bump r m) = S (ledger_total m).
Proof.
  unfold ledger_total, bump.
  destruct (m !! r) as [n|] eqn:Hr; simpl.
  - rewrite <- insert_delete_eq.
    rewrite map_fold_insert_L; [| intros; lia | apply lookup_delete_eq].
    rewrite (map_fold_delete_L _ _ r n m); [lia | intros; lia | done].
  - rewrite map_fold_insert_L; [done | intros; lia | done].
Qed.

Section LoopFacts.

Variable toLowerCase : jsstring -> jsstring.

Lemma loop_body_collects (st : LoopState) (file : File) (pf : ProjectFile) :
  admitted toLowerCase file = Some pf ->
  loop_body toLowerCase st file
  = {| projectFiles := projectFiles st ++ [pf];
       processedFileCount := S (processedFileCount st);
       skippedFileCount := skippedFileCount st;
       skippedReasons := skippedReasons st;
       console_error := console_error st |}.
Proof.
  unfold admitted, loop_body.
  destruct (ignore _); [done|].
  destruct (file_text file); [|done]. by intros [= <-].
Qed.

Lemma loop_body_skips (st : LoopState) (file : File) :
  admitted toLowerCase file = None ->
  exists r,
    JS.truthy r = true
    /\ projectFiles (loop_body toLowerCase st file) = projectFiles st
    /\ processedFileCount (loop_body toLowerCase st file) = processedFileCount st
    /\ skippedFileCount (loop_body toLowerCase st file) = S (skippedFileCount st)
    /\ skippedReasons (loop_body toLowerCase st file) = bump r (skippedReasons st).
Proof.
  unfold admitted, loop_body.
  destruct (ignore _) eqn:Hig.
  - intros _. destruct (shouldIgnoreFile_reason _ _ _ Hig) as (r & -> & Hr).
    exists r. by rewrite Hr.
  - destruct (file_text file); [done|]. intros _. by exists reason_unreadable.
Qed.

Lemma foldl_loop_body (files : list File) (st : LoopState) :
  let st' := foldl (loop_body toLowerCase) st files in
  let collected := omap (admitted toLowerCase) files in
  projectFiles st' = projectFiles st ++ collected
  /\ processedFileCount st' = processedFileCount st + length collected
  /\ skippedFileCount st' + length collected = skippedFileCount st + length files
  /\ ledger_total (skippedReasons st') + length collected
     = ledger_total (skippedReasons st) + length files.
Proof.
  revert st. induction files as [|file files IH]; intros st; cbn.
  - rewrite app_nil_r. split_and!; [done | lia | lia | lia].
  - destruct (IH (loop_body toLowerCase st file)) as (Hp & Hn & Hs & Hl).
    destruct (admitted toLowerCase file) as [pf|] eqn:Hadm; cbn.
    + rewrite (loop_body_collects st file pf Hadm) in Hp, Hn, Hs, Hl |- *.
      cbn in *. rewrite <- app_assoc in Hp. split_and!; [exact Hp | lia | lia | lia].
    + destruct (loop_body_skips st file Hadm) as (r & _ & Ep & En & Es & El).
      rewrite Ep in Hp. rewrite En in Hn. rewrite Es in Hs.
      rewrite El, ledger_total_bump in Hl.
      split_and!; [done | lia | lia | lia].
Qed.

Lemma run_loop_spec (files : list File) :
  let st := run_loop toLowerCase files in
  projectFiles st = omap (admitted toLowerCase) files
  /\ processedFileCount st = length (projectFiles st)
  /\ processedFileCount st + skippedFileCount st = length files
  /\ ledger_total (skippedReasons st) = skippedFileCount st.
Proof.
  destruct (foldl_loop_body files loop_init) as (Hp & Hn & Hs & Hl).
  unfold run_loop. simpl in *.
  assert (Hempty : ledger_total (∅ : gmap (list N) nat) = 0) by apply map_fold_empty.
  rewrite Hempty in Hl. rewrite Hp.
  split_and!; [done | lia | lia | lia].
Qed.

(** The collected files, paired with the descriptors they come from. *)
Lemma collected_from_sublist (files : list File) :
  exists kept,
    kept `sublist_of` files
    /\ Forall2 (fun pf file => path pf = filePath_of file
                               /\ file_text file = Some (content pf)
                               /\ admitted toLowerCase file = Some pf)
         (omap (admitted toLowerCase) files) kept.
Proof.
  induction files as [|file files (kept & Hsub & Hall)]; simpl.
  - exists []. split; [done | constructor].
  - destruct (admitted toLowerCase file) as [pf|] eqn:Hadm; simpl.
    + exists (file :: kept). split; [by constructor|].
      constructor; [|done].
      unfold admitted in Hadm |- *. destruct (ignore _); [done|].
      destruct (file_text file); [|done]. injection Hadm as <-. done.
    + exists kept. split; [by constructor | done].
Qed.

End LoopFacts.

Section HandlerFacts.

Variable toLowerCase : jsstring -> jsstring.

(** What [handleFileChange] reports for a non-empty selection, in terms of
    the loop run on the files it keeps. *)
Lemma handleFileChange_nonempty (files : list File) :
  files <> [] ->
  let out := handleFileChange toLowerCase (Some files) in
  let st := run_loop toLowerCase (take MAX_TOTAL_FILES files) in
  loop out = st
  /\ onFilesSelected_files out = projectFiles st
  /\ fileSummary out = summary_of st
  /\ console_warn out
     = (if (MAX_TOTAL_FILES <? length files)%nat
        then [too_many_warning (length files)] else [])
       ++ (if (length (projectFiles st) =? 0)%nat
              && (0 <? length (take MAX_TOTAL_FILES files))%nat
              && negb (bool_decide (skippedReasons st = ∅))
           then [JS.lit "Reasons for skipping all files:"] else [])
  /\ error out
     = if (length (projectFiles st) =? 0)%nat
          && (0 <? length (take MAX_TOTAL_FILES files))%nat
       then Some (JS.lit "No reviewable files found. Check file types or ignored patterns.")
       else if (length (projectFiles st) =? 0)%nat
               && (length (take MAX_TOTAL_FILES files) =? 0)%nat
            then Some (JS.lit "No files selected or folder is empty.")
            else if (MAX_TOTAL_FILES <? length files)%nat
                 then Some (too_many_error (length files)) else None.
Proof. destruct files as [|first rest]; [done|]. intros _. by split_and!. Qed.

Lemma handleFileChange_accepted (htmlFiles : option (list File)) :
  onFilesSelected_files (handleFileChange toLowerCase htmlFiles)
  = omap (admitted toLowerCase) (take MAX_TOTAL_FILES (default [] htmlFiles)).
Proof.
  destruct htmlFiles as [[|first rest]|]; [done | | done].
  destruct (handleFileChange_nonempty (first :: rest)) as (_ & -> & _); [done|].
  apply run_loop_spec.
Qed.

End HandlerFacts.

(** C7, as amended. With more than 500 descriptors the loop runs on the
    first 500 in input order and on nothing else: the collected files, the
    counters, the skip ledger and the summary are those of the first 500
    selected alone, every one of the 500 is either collected or counted as
    skipped, and the ledger holds as many records as files were skipped
    among them.  The handler reports the truncation by its totals, not by
    the number left out: the first console warning reads "Too many files
    selected (n). Processing the first 500." with n the number selected;
    the displayed error reads "Processing the first 500 files out of n.
    Some files were ignored." whenever a file was collected, and is
    replaced by the no-reviewable-files message when none was. *)
Theorem total_count_cap (toLowerCase : jsstring -> jsstring) (files : list File) :
  MAX_TOTAL_FILES < length files ->
  let out := handleFileChange toLowerCase (Some files) in
  let first500 := handleFileChange toLowerCase (Some (take MAX_TOTAL_FILES files)) in
  loop out = run_loop toLowerCase (take MAX_TOTAL_FILES files)
  /\ loop out = loop first500
  /\ onFilesSelected_files out = onFilesSelected_files first500
  /\ fileSummary out = fileSummary first500
  /\ onFilesSelected_files out = omap (admitted toLowerCase) (take MAX_TOTAL_FILES files)
  /\ processedFileCount (loop out) + skippedFileCount (loop out) = MAX_TOTAL_FILES
  /\ ledger_total (skippedReasons (loop out)) = skippedFileCount (loop out)
  /\ head (console_warn out)
     = Some (JS.lit "Too many files selected (" ++ JS.show (N.of_nat (length files))
             ++ JS.lit "). Processing the first 500.")
  /\ (onFilesSelected_files out <> [] ->
      error out
      = Some (JS.lit "Processing the first 500 files out of "
              ++ JS.show (N.of_nat (length files)) ++ JS.lit ". Some files were ignored."))
  /\ (onFilesSelected_files out = [] ->
      error out
      = Some (JS.lit "No reviewable files found. Check file types or ignored patterns.")).
Proof.
  intros Hlen out first500.
  assert (Hne : files <> []) by (intros ->; simpl in Hlen; lia).
  assert (Hlen500 : length (take MAX_TOTAL_FILES files) = MAX_TOTAL_FILES)
    by (rewrite length_take; lia).
  assert (Hne500 : take MAX_TOTAL_FILES files <> []).
  { intros E. rewrite E in Hlen500. discriminate Hlen500. }
  destruct (handleFileChange_nonempty toLowerCase files Hne) as (Hloop & Hacc & Hsum & Hwarn & Herr).
  destruct (handleFileChange_nonempty toLowerCase _ Hne500) as (Hloop' & Hacc' & Hsum' & _).
  rewrite take_idemp in Hloop', Hacc', Hsum'.
  fold out in Hloop, Hacc, Hsum, Hwarn, Herr. fold first500 in Hloop', Hacc', Hsum'.
  destruct (run_loop_spec toLowerCase (take MAX_TOTAL_FILES files)) as (Hp & Hn & Hs & Hl).
  rewrite <- Hloop in Hp, Hn, Hs, Hl.
  assert (Hover : (MAX_TOTAL_FILES <? length files)%nat = true) by by apply Nat.ltb_lt.
  rewrite Hover in Hwarn, Herr. rewrite Hlen500 in Herr.
  split_and!.
  - done.
  - by rewrite Hloop, Hloop'.
  - by rewrite Hacc, Hacc'.
  - by rewrite Hsum, Hsum'.
  - by rewrite Hacc, <- Hloop.
  - by rewrite Hs.
  - done.
  - rewrite Hwarn. reflexivity.
  - intros Hsome. rewrite Herr. rewrite Hacc in Hsome.
    destruct (projectFiles _); [done|]. reflexivity.
  - intros Hnone. rewrite Herr. rewrite Hacc in Hnone. by rewrite Hnone.
Qed.

Lemma total_count_cap_witness :
  let files := replicate 500 (sample_file "src/a.ts" 120 (Some "let a = 1;"))
               ++ [sample_file "src/b.ts" 80 (Some "let b = 2;")] in
  let out := handleFileChange JS.toLowerCase_ascii_only (Some files) in
  MAX_TOTAL_FILES < length files
  /\ onFilesSelected_files out
     = omap (admitted JS.toLowerCase_ascii_only) (take MAX_TOTAL_FILES files)
  /\ head (console_warn out)
     = Some (JS.lit "Too many files selected (501). Processing the first 500.").
Proof.
  intros files out.
  assert (Hlen : MAX_TOTAL_FILES < length files).
  { unfold files, MAX_TOTAL_FILES. rewrite length_app, length_replicate. simpl. lia. }
  destruct (total_count_cap JS.toLowerCase_ascii_only files Hlen)
    as (_ & _ & _ & _ & Hacc & _ & _ & Hwarn & _).
  split_and!; [exact Hlen | exact Hacc | exact Hwarn].
Defined.

(** C7 as stated fails in its last clause: the number of descriptors left
    out is not reported.  Of 600 files selected, 100 are left out; the
    console warning, the displayed error and the summary give 600 and 500
    and nowhere 100.  When none of the first 500 is collected the displayed
    error does not mention the truncation at all. *)
Lemma truncated_count_not_reported_counterexample :
  let files := replicate 600 (sample_file "src/a.ts" 120 (Some "let a = 1;")) in
  let out := handleFileChange JS.toLowerCase_ascii_only (Some files) in
  let ignored := replicate 600 (sample_file "node_modules/x.js" 50 (Some "let x = 0;")) in
  let out' := handleFileChange JS.toLowerCase_ascii_only (Some ignored) in
  length files - MAX_TOTAL_FILES = 100
  /\ console_warn out = [JS.lit "Too many files selected (600). Processing the first 500."]
  /\ error out
     = Some (JS.lit "Processing the first 500 files out of 600. Some files were ignored.")
  /\ fileSummary out = JS.lit "500 file(s) collected."
  /\ console_error (loop out) = []
  /\ JS.includes (JS.lit "Too many files selected (600). Processing the first 500.")
       (JS.lit "100") = false
  /\ JS.includes (JS.lit "Processing the first 500 files out of 600. Some files were ignored.")
       (JS.lit "100") = false
  /\ JS.includes (JS.lit "500 file(s) collected.") (JS.lit "100") = false
  /\ error out'
     = Some (JS.lit "No reviewable files found. Check file types or ignored patterns.")
  /\ fileSummary out' = JS.lit "0 file(s) collected. 500 file(s) skipped.".
Proof. by vm_compute. Qed.

(** C8. The files handed to [onFilesSelected] are the admitted ones among
    the first 500 descriptors, in input order: they correspond one to one,
    in order, to a subsequence of the input, each with the path of its
    descriptor and the text read from it; so the accepted paths are a
    subsequence of the input paths.  The handler is a function of its input
    (and of the case mapping of the platform): equal inputs give equal
    outputs. *)
Theorem accepted_is_subsequence
    (toLowerCase : jsstring -> jsstring) (htmlFiles : option (list File)) :
  let files := default [] htmlFiles in
  let accepted := onFilesSelected_files (handleFileChange toLowerCase htmlFiles) in
  accepted = omap (admitted toLowerCase) (take MAX_TOTAL_FILES files)
  /\ (exists kept,
        kept `sublist_of` files
        /\ Forall2 (fun pf file => path pf = filePath_of file
                                   /\ file_text file = Some (content pf)
                                   /\ admitted toLowerCase file = Some pf)
             accepted kept)
  /\ (path <$> accepted) `sublist_of` (filePath_of <$> files).
Proof.
  intros files accepted.
  assert (Hacc : accepted = omap (admitted toLowerCase) (take MAX_TOTAL_FILES files))
    by apply handleFileChange_accepted.
  destruct (collected_from_sublist toLowerCase (take MAX_TOTAL_FILES files))
    as (kept & Hsub & Hall).
  rewrite <- Hacc in Hall.
  assert (Hkept : kept `sublist_of` files).
  { etrans; [exact Hsub | apply sublist_take]. }
  split_and!; [done | by exists kept |].
  assert (Hpaths : path <$> accepted = filePath_of <$> kept).
  { clear -Hall. induction Hall as [|pf file ? ? (Hpath & _) _ IH]; [done|].
    by rewrite !fmap_cons, Hpath, IH. }
  rewrite Hpaths. by apply fmap_sublist.
Qed.

Example end_to_end_scenario :
  let files := [sample_file "src/a.ts" 120 (Some "export const a = 1;");
                sample_file "node_modules/x/y.js" 50 (Some "module.exports = 0;");
                sample_file "README" 30 (Some "Read me.")] in
  let out := handleFileChange JS.toLowerCase_ascii_only (Some files) in
  path <$> onFilesSelected_files out = [JS.lit "src/a.ts"; JS.lit "README"]
  /\ skippedReasons (loop out) = {[ JS.lit "Matches ignore pattern: /node_modules/" := 1 ]}
  /\ fileSummary out = JS.lit "2 file(s) collected. 1 file(s) skipped."
  /\ error out = None.
Proof. by vm_compute. Qed.

(** ** A file that cannot be read *)

Lemma bump_comm (r1 r2 : jsstring) (m : gmap (list N) nat) :
  bump r1 (bump r2 m) = bump r2 (bump r1 m).
Proof.
  destruct (decide (r1 = r2)) as [->|Hne]; [done|].
  unfold bump. rewrite !lookup_insert_ne by done.
  by apply insert_insert_ne.
Qed.

Section UnreadableFacts.

Variable toLowerCase : jsstring -> jsstring.

(** The ledger update of one iteration depends on the file alone and
    commutes with any other record. *)
Lemma loop_body_ledger (file : File) :
  exists g : gmap (list N) nat -> gmap (list N) nat,
    (forall st, skippedReasons (loop_body toLowerCase st file) = g (skippedReasons st))
    /\ (forall r m, g (bump r m) = bump r (g m)).
Proof.
  unfold loop_body.
  destruct (ignore _).
  - destruct (reason _) as [r'|]; [destruct (JS.truthy r')|].
    + exists (bump r'). split; [done|]. intros r m. apply bump_comm.
    + by exists id.
    + by exists id.
  - destruct (file_text file).
    + by exists id.
    + exists (bump reason_unreadable). split; [done|]. intros r m. apply bump_comm.
Qed.

Lemma foldl_ledger_bump (r : jsstring) (files : list File) (st st' : LoopState) :
  skippedReasons st' = bump r (skippedReasons st) ->
  skippedReasons (foldl (loop_body toLowerCase) st' files)
  = bump r (skippedReasons (foldl (loop_body toLowerCase) st files)).
Proof.
  revert st st'. induction files as [|file files IH]; intros st st' Hst; [done|].
  cbn. apply IH.
  destruct (loop_body_ledger file) as (g & Hg & Hcomm).
  by rewrite !Hg, Hst, Hcomm.
Qed.

Lemma loop_body_unreadable (st : LoopState) (file : File) :
  ignore (shouldIgnoreFile toLowerCase (filePath_of file) (file_size file)) = false ->
  file_text file = None ->
  loop_body toLowerCase st file
  = {| projectFiles := projectFiles st;
       processedFileCount := processedFileCount st;
       skippedFileCount := S (skippedFileCount st);
       skippedReasons := bump reason_unreadable (skippedReasons st);
       console_error := console_error st ++
         [JS.lit "Could not read file " ++ filePath_of file ++ JS.lit " as text:"] |}.
Proof. intros Hpass Hnone. unfold loop_body. by rewrite Hpass, Hnone. Qed.

End UnreadableFacts.

(** X24. When the promise of [file.text()] rejects (the read itself
    fails) for a file that passes the size, pattern and allow-list checks,
    the file is counted as skipped under the could-not-read reason, the
    failure is logged, and the loop goes on: the run over a list that
    holds such a file collects the same files and the same count as the run
    without it, with one more skipped file and that one more record in the
    ledger.  Whatever the list, every file is either collected or skipped,
    each skipped file adds one to exactly one counter of the ledger, under a
    non-empty reason, and the ledger's total is the number of skipped
    files. *)
Theorem unreadable_file_skipped_alone
    (toLowerCase : jsstring -> jsstring) (file : File) :
  ignore (shouldIgnoreFile toLowerCase (filePath_of file) (file_size file)) = false ->
  file_text file = None ->
  (forall st,
      loop_body toLowerCase st file
      = {| projectFiles := projectFiles st;
           processedFileCount := processedFileCount st;
           skippedFileCount := S (skippedFileCount st);
           skippedReasons := bump reason_unreadable (skippedReasons st);
           console_error := console_error st ++
             [JS.lit "Could not read file " ++ filePath_of file ++ JS.lit " as text:"] |})
  /\ (forall before after,
        let with_it := run_loop toLowerCase (before ++ file :: after) in
        let without := run_loop toLowerCase (before ++ after) in
        projectFiles with_it = projectFiles without
        /\ processedFileCount with_it = processedFileCount without
        /\ skippedFileCount with_it = S (skippedFileCount without)
        /\ skippedReasons with_it = bump reason_unreadable (skippedReasons without))
  /\ (forall files,
        let st := run_loop toLowerCase files in
        processedFileCount st + skippedFileCount st = length files
        /\ length (projectFiles st) = processedFileCount st
        /\ ledger_total (skippedReasons st) = skippedFileCount st)
  /\ (forall st other,
        admitted toLowerCase other = None ->
        exists r,
          JS.truthy r = true
          /\ skippedFileCount (loop_body toLowerCase st other) = S (skippedFileCount st)
          /\ skippedReasons (loop_body toLowerCase st other) = bump r (skippedReasons st)
          /\ projectFiles (loop_body toLowerCase st other) = projectFiles st).
Proof.
  intros Hpass Hnone.
  assert (Hadm : admitted toLowerCase file = None).
  { unfold admitted. by rewrite Hpass, Hnone. }
  split_and!.
  - intros st. by apply loop_body_unreadable.
  - intros before after with_it without.
    destruct (run_loop_spec toLowerCase (before ++ file :: after)) as (Hp & Hn & Hs & _).
    destruct (run_loop_spec toLowerCase (before ++ after)) as (Hp' & Hn' & Hs' & _).
    fold with_it in Hp, Hn, Hs. fold without in Hp', Hn', Hs'.
    assert (Hsame : projectFiles with_it = projectFiles without).
    { rewrite Hp, Hp', !omap_app. cbn. by rewrite Hadm. }
    rewrite !length_app in *. cbn in Hs.
    split_and!; [done | by rewrite Hn, Hn', Hsame | rewrite Hsame in Hn; lia |].
    unfold with_it, without, run_loop. rewrite !foldl_app. cbn.
    apply foldl_ledger_bump. by rewrite loop_body_unreadable.
  - intros files st.
    destruct (run_loop_spec toLowerCase files) as (_ & Hn & Hs & Hl).
    by split_and!.
  - intros st other Hother.
    destruct (loop_body_skips toLowerCase st other Hother) as (r & Hr & Ep & _ & Es & El).
    by exists r.
Qed.

Lemma unreadable_file_skipped_alone_witness :
  let file := sample_file "src/a.ts" 120 None in
  let others := [sample_file "README" 30 (Some "Read me.")] in
  projectFiles (run_loop JS.toLowerCase_ascii_only (file :: others))
  = projectFiles (run_loop JS.toLowerCase_ascii_only others)
  /\ skippedReasons (run_loop JS.toLowerCase_ascii_only (file :: others))
     = bump (JS.lit "Could not read as text (binary?)")
         (skippedReasons (run_loop JS.toLowerCase_ascii_only others)).
Proof.
  intros file others.
  destruct (unreadable_file_skipped_alone JS.toLowerCase_ascii_only file)
    as (_ & Hrun & _); [reflexivity | reflexivity |].
  destruct (Hrun [] others) as (Hp & _ & _ & Hl).
  split; [exact Hp | exact Hl].
Defined.

Lemma verdict_reason_not_unreadable
    (toLowerCase : jsstring -> jsstring) (filePath : jsstring) (fileSize : N) :
  reason (shouldIgnoreFile toLowerCase filePath fileSize) <> Some reason_unreadable.
Proof.
  unfold shouldIgnoreFile, shouldIgnoreFile_with.
  destruct (MAX_FILE_SIZE_BYTES <? fileSize)%N; [done|].
  destruct (List.find _ _); [done|].
  unfold allow_list_verdict.
  repeat (match goal with |- context [if ?b then _ else _] => destruct b end); done.
Qed.

(** C9. What the code does where the claim fails.  The text of a file is
    the UTF-8 decoding of its bytes, which replaces what it cannot decode
    and does not fail: whatever the bytes of a file that can be read, one
    iteration of the loop leaves the could-not-read counter as it was, and
    a file that passes the checks is collected with the decoded text.  A
    PNG image named [assets/logo.txt] is collected, with U+FFFD for its
    first byte, and nothing is skipped or logged. *)
Theorem undecodable_bytes_are_collected :
  (forall (toLowerCase : jsstring -> jsstring) (st : LoopState)
          (relativePath : string) (bytes : list N),
      let file := readable_file relativePath bytes in
      skippedReasons (loop_body toLowerCase st file) !! reason_unreadable
      = skippedReasons st !! reason_unreadable
      /\ (ignore (shouldIgnoreFile toLowerCase (filePath_of file) (file_size file)) = false ->
          loop_body toLowerCase st file
          = {| projectFiles :=
                 projectFiles st
                 ++ [{| path := filePath_of file; content := JS.utf8_decode bytes |}];
               processedFileCount := S (processedFileCount st);
               skippedFileCount := skippedFileCount st;
               skippedReasons := skippedReasons st;
               console_error := console_error st |}))
  /\ let png := [0x89; 0x50; 0x4E; 0x47; 0x0D; 0x0A; 0x1A; 0x0A]%N in
     let out := handleFileChange JS.toLowerCase_ascii_only
                  (Some [readable_file "assets/logo.txt" png]) in
     onFilesSelected_files out
     = [{| path := JS.lit "assets/logo.txt";
           content := [0xFFFD; 0x50; 0x4E; 0x47; 0x0D; 0x0A; 0x1A; 0x0A]%N |}]
     /\ skippedFileCount (loop out) = 0
     /\ skippedReasons (loop out) = ∅
     /\ console_error (loop out) = []
     /\ fileSummary out = JS.lit "1 file(s) collected."
     /\ error out = None.
Proof.
  split; [|by vm_compute].
  intros toLowerCase st relativePath bytes file. split.
  - unfold loop_body.
    pose proof (verdict_reason_not_unreadable toLowerCase (filePath_of file) (file_size file))
      as Hreason.
    destruct (ignore _); [|done].
    cbn [skippedReasons].
    destruct (reason _) as [r|]; [|done].
    destruct (JS.truthy r); [|done].
    unfold bump. rewrite lookup_insert_ne; [done|]. congruence.
  - intros Hpass. unfold loop_body. by rewrite Hpass.
Qed.

(** ** [getProjectReviewFeedback] *)

Lemma utf8_length_ascii (s : jsstring) :
  JS.is_ascii s -> JS.utf8_length s = N.of_nat (length s).
Proof.
  induction 1 as [|c s Hc _ IH]; [done|].
  cbn [JS.utf8_length length].
  assert (Hlt : (c <? 128)%N = true) by by apply N.ltb_lt.
  rewrite Hlt, IH. lia.
Qed.

Lemma msg_no_files_distinct (toLowerCase : jsstring -> jsstring) :
  msg_no_files <> msg_no_api_key
  /\ (forall n, msg_no_files <> msg_too_large n)
  /\ (forall e, msg_no_files <> translate_failure toLowerCase e).
Proof.
  split_and!; [done | done |].
  intros [message|]; [|done]. unfold translate_failure.
  repeat (match goal with |- context [if ?b then _ else _] => destruct b end); done.
Qed.

Lemma msg_too_large_distinct (toLowerCase : jsstring -> jsstring) (n : N) :
  msg_too_large n <> msg_no_api_key
  /\ msg_too_large n <> msg_no_files
  /\ (forall e, msg_too_large n <> translate_failure toLowerCase e).
Proof.
  assert (Hshape : forall m, msg_too_large n = m -> take 21 m = JS.lit "The project content (").
  { intros m <-. reflexivity. }
  split_and!; [done | done |].
  intros [message|] E; apply Hshape in E; [|done].
  unfold translate_failure in E.
  repeat (match type of E with context [if ?b then _ else _] => destruct b end); done.
Qed.

(** C3, as amended. With the API key configured, a call with no files is
    rejected with the no-files message, whatever the project name and the
    remote service: nothing is logged and the service is not called, and the
    outcome does not depend on the name from which the blob would be built.
    The message differs from the missing-key one, from the too-large one and
    from every message a remote failure is translated to. *)
Theorem empty_file_list_rejected
    (toLowerCase : jsstring -> jsstring) (SYSTEM_INSTRUCTION_PROJECT : jsstring)
    (API_KEY : option jsstring) (generateContent : Request -> option jsstring + Thrown)
    (projectName : jsstring) :
  api_key_missing API_KEY = false ->
  getProjectReviewFeedback toLowerCase SYSTEM_INSTRUCTION_PROJECT API_KEY generateContent
    [] projectName
  = (Rejected msg_no_files, [])
  /\ remote_calls
       (snd (getProjectReviewFeedback toLowerCase SYSTEM_INSTRUCTION_PROJECT API_KEY
               generateContent [] projectName)) = 0
  /\ msg_no_files <> msg_no_api_key
  /\ (forall n, msg_no_files <> msg_too_large n)
  /\ (forall e, msg_no_files <> translate_failure toLowerCase e).
Proof.
  intros Hkey.
  assert (Hrun : getProjectReviewFeedback toLowerCase SYSTEM_INSTRUCTION_PROJECT API_KEY
                   generateContent [] projectName = (Rejected msg_no_files, [])).
  { unfold getProjectReviewFeedback. by rewrite Hkey. }
  rewrite Hrun. split_and!; [done | done | ..]; apply (msg_no_files_distinct toLowerCase).
Qed.

Lemma empty_file_list_rejected_witness :
  getProjectReviewFeedback JS.toLowerCase_ascii_only [] (Some (JS.lit "secret-key"))
    (fun _ => inl (Some (JS.lit "Project Review for: demo"))) [] (JS.lit "demo")
  = (Rejected (JS.lit "No files were provided for review. Please select a project with reviewable files."), []).
Proof.
  apply (empty_file_list_rejected JS.toLowerCase_ascii_only [] (Some (JS.lit "secret-key"))
           (fun _ => inl (Some (JS.lit "Project Review for: demo"))) (JS.lit "demo")).
  reflexivity.
Defined.

(** C3 as stated fails when the API key is not configured: the key test
    comes first and rejects with its own message. *)
Lemma empty_file_list_without_key_counterexample :
  getProjectReviewFeedback JS.toLowerCase_ascii_only [] None
    (fun _ => inl (Some (JS.lit "Project Review for: demo"))) [] (JS.lit "demo")
  = (Rejected (JS.lit "Gemini API key is not configured. Please set the API_KEY environment variable."), [])
  /\ msg_no_api_key <> msg_no_files.
Proof. split; [reflexivity | done]. Qed.

Lemma blob_size_filler (n : N) :
  JS.utf8_length (combinedContent [filler_file n] (JS.lit "demo")) = (86 + n)%N.
Proof.
  rewrite utf8_length_ascii.
  - unfold combinedContent, file_block, filler_file, nl. cbn [path content fmap list_fmap concat].
    rewrite !length_app, length_replicate. cbn [length JS.lit]. simpl length. lia.
  - unfold combinedContent, file_block, filler_file, nl, JS.is_ascii.
    cbn [path content fmap list_fmap concat].
    repeat (apply Forall_app; split);
      try (apply Forall_replicate; reflexivity); try by_evaluation.
Qed.

(** C4, as amended. With the API key configured and at least one file, the
    call measures the UTF-8 size of the blob against 3,800,000 bytes.
    Above the ceiling, so also at one byte over, it is rejected with the
    too-large message after a console warning and without calling the
    service; the message gives the measured size and the limit in KB,
    rounded.  At or below the ceiling, so also at one byte under, the first
    effect is the one call of the service with the blob as contents. *)
Theorem payload_ceiling
    (toLowerCase : jsstring -> jsstring) (SYSTEM_INSTRUCTION_PROJECT : jsstring)
    (API_KEY : option jsstring) (generateContent : Request -> option jsstring + Thrown)
    (files : list ProjectFile) (projectName : jsstring) :
  api_key_missing API_KEY = false ->
  files <> [] ->
  let blob := combinedContent files projectName in
  let size := JS.utf8_length blob in
  let request := {| req_model := model; req_contents := blob;
                    req_systemInstruction := SYSTEM_INSTRUCTION_PROJECT |} in
  let run := getProjectReviewFeedback toLowerCase SYSTEM_INSTRUCTION_PROJECT API_KEY
               generateContent files projectName in
  ((MAX_CONTENT_LENGTH_BYTES < size)%N ->
     run = (Rejected (msg_too_large size), [ConsoleWarn (warn_too_large size)])
     /\ remote_calls (snd run) = 0)
  /\ (size = (MAX_CONTENT_LENGTH_BYTES + 1)%N ->
      fst run = Rejected (msg_too_large (MAX_CONTENT_LENGTH_BYTES + 1))
      /\ remote_calls (snd run) = 0)
  /\ ((size <= MAX_CONTENT_LENGTH_BYTES)%N ->
      head (snd run) = Some (GenerateContent request) /\ remote_calls (snd run) = 1)
  /\ (size = (MAX_CONTENT_LENGTH_BYTES - 1)%N ->
      head (snd run) = Some (GenerateContent request) /\ remote_calls (snd run) = 1)
  /\ msg_too_large size
     = JS.lit "The project content (" ++ JS.show (JS.round_div size 1024)
       ++ JS.lit " KB) is too large and exceeds the processing limit of 3711 KB. Please try with a smaller project or select fewer files."
  /\ msg_too_large size <> msg_no_api_key
  /\ msg_too_large size <> msg_no_files
  /\ (forall e, msg_too_large size <> translate_failure toLowerCase e).
Proof.
  intros Hkey Hfiles blob size request run.
  assert (Hlen : (length files =? 0)%nat = false).
  { destruct files; [done | reflexivity]. }
  assert (Hover : (MAX_CONTENT_LENGTH_BYTES < size)%N ->
                  run = (Rejected (msg_too_large size), [ConsoleWarn (warn_too_large size)])
                  /\ remote_calls (snd run) = 0).
  { intros Hsize%N.ltb_lt. unfold run, getProjectReviewFeedback.
    rewrite Hkey, Hlen. fold blob. fold size. by rewrite Hsize. }
  assert (Hunder : (size <= MAX_CONTENT_LENGTH_BYTES)%N ->
                   head (snd run) = Some (GenerateContent request)
                   /\ remote_calls (snd run) = 1).
  { intros Hsize%N.ltb_ge. unfold run, getProjectReviewFeedback.
    rewrite Hkey, Hlen. fold blob. fold size. rewrite Hsize. fold request.
    by destruct (generateContent request). }
  split_and!.
  - exact Hover.
  - intros Hsize. destruct Hover as [-> Hcalls]; [rewrite Hsize; reflexivity|].
    split; [by rewrite Hsize | done].
  - exact Hunder.
  - intros Hsize. apply Hunder. rewrite Hsize. by vm_compute.
  - reflexivity.
  - apply (msg_too_large_distinct toLowerCase).
  - apply (msg_too_large_distinct toLowerCase).
  - apply (msg_too_large_distinct toLowerCase).
Qed.

Lemma payload_ceiling_witness :
  let files := [filler_file 3799915] in
  let run := getProjectReviewFeedback JS.toLowerCase_ascii_only [] (Some (JS.lit "secret-key"))
               (fun _ => inl (Some (JS.lit "Project Review for: demo"))) files (JS.lit "demo") in
  JS.utf8_length (combinedContent files (JS.lit "demo")) = 3800001%N
  /\ fst run = Rejected (JS.lit "The project content (3711 KB) is too large and exceeds the processing limit of 3711 KB. Please try with a smaller project or select fewer files.")
  /\ remote_calls (snd run) = 0.
Proof.
  intros files run.
  pose proof (blob_size_filler 3799915) as Hsize. fold files in Hsize.
  destruct (payload_ceiling JS.toLowerCase_ascii_only [] (Some (JS.lit "secret-key"))
              (fun _ => inl (Some (JS.lit "Project Review for: demo"))) files (JS.lit "demo"))
    as (_ & Hone & _); [reflexivity | discriminate |].
  fold run in Hone. destruct Hone as [Hfst Hcalls]; [exact Hsize|].
  split_and!; [exact Hsize | exact Hfst | exact Hcalls].
Defined.

Example payload_one_byte_under :
  let files := [filler_file 3799913] in
  let run := getProjectReviewFeedback JS.toLowerCase_ascii_only [] (Some (JS.lit "secret-key"))
               (fun _ => inl (Some (JS.lit "Project Review for: demo"))) files (JS.lit "demo") in
  JS.utf8_length (combinedContent files (JS.lit "demo")) = 3799999%N
  /\ remote_calls (snd run) = 1
  /\ fst run = Resolved (Some (JS.lit "Project Review for: demo")).
Proof.
  intros files run.
  pose proof (blob_size_filler 3799913) as Hsize. fold files in Hsize.
  split; [exact Hsize|].
  unfold run, getProjectReviewFeedback.
  change (api_key_missing (Some (JS.lit "secret-key"))) with false.
  change (length files =? 0)%nat with false. cbv iota.
  rewrite Hsize. split; reflexivity.
Qed.

(** C4 as stated fails when the API key is not configured: an oversized
    project is then rejected with the missing-key message. *)
Lemma oversized_without_key_counterexample :
  let files := [filler_file 3799915] in
  JS.utf8_length (combinedContent files (JS.lit "demo")) = (MAX_CONTENT_LENGTH_BYTES + 1)%N
  /\ getProjectReviewFeedback JS.toLowerCase_ascii_only [] None
       (fun _ => inl (Some (JS.lit "Project Review for: demo"))) files (JS.lit "demo")
     = (Rejected (JS.lit "Gemini API key is not configured. Please set the API_KEY environment variable."), [])
  /\ forall n, msg_no_api_key <> msg_too_large n.
Proof.
  intros files. split_and!.
  - exact (blob_size_filler 3799915).
  - reflexivity.
  - intros n E. symmetry in E.
    by apply (msg_too_large_distinct JS.toLowerCase_ascii_only n) in E.
Qed.

(** ** Reading the blob back *)

Lemma strip_prefix_app (p r : jsstring) : strip_prefix p (p ++ r) = Some r.
Proof. induction p as [|b p IH]; simpl; [done|]. by rewrite N.eqb_refl. Qed.

Lemma strip_prefix_longer (d s r : jsstring) :
  strip_prefix d s = None -> length d <= length s -> strip_prefix d (s ++ r) = None.
Proof.
  revert s. induction d as [|b d IH]; intros s Hnone Hlen; simpl in *; [done|].
  destruct s as [|a s]; simpl in *; [lia|].
  destruct (a =? b)%N; [|done]. apply IH; [done | lia].
Qed.

Lemma split_at_first_unfold (d s : jsstring) :
  split_at_first d s
  = match strip_prefix d s with
    | Some rest => Some ([], rest)
    | None =>
        match s with
        | [] => None
        | a :: s' =>
            match split_at_first d s' with
            | Some (before, rest) => Some (a :: before, rest)
            | None => None
            end
        end
    end.
Proof. by destruct s. Qed.

(** A field that ends at the first occurrence of its terminator is read
    back whole, whatever follows the terminator. *)
Lemma split_at_first_field (d a r : jsstring) :
  ends_at_first d a -> split_at_first d (a ++ d ++ r) = Some (a, r).
Proof.
  unfold ends_at_first. induction a as [|x a IH]; intros H.
  - rewrite split_at_first_unfold. simpl. by rewrite strip_prefix_app.
  - rewrite split_at_first_unfold in H. rewrite split_at_first_unfold.
    destruct (strip_prefix d ((x :: a) ++ d)) eqn:Hd; [done|].
    replace ((x :: a) ++ d ++ r) with (((x :: a) ++ d) ++ r) by (by rewrite <- app_assoc).
    rewrite strip_prefix_longer; [| done | rewrite length_app; lia].
    simpl in *.
    destruct (split_at_first d (a ++ d)) as [[before rest]|] eqn:Ha; [|done].
    injection H as -> ->.
    rewrite <- app_assoc. by rewrite IH.
Qed.

Lemma strip_prefix_inv (d s r : jsstring) :
  strip_prefix d s = Some r -> s = d ++ r.
Proof.
  revert s. induction d as [|b d IH]; intros s H; simpl in *; [congruence|].
  destruct s as [|a s]; [done|].
  destruct (N.eqb_spec a b) as [->|]; [|done].
  by rewrite (IH s H).
Qed.

(** A sufficient condition: some unit [c] of the terminator, not repeated
    before its position [k] in the terminator, does not occur in the field. *)
Lemma ends_at_first_absent (d a : jsstring) (c : N) (k : nat) :
  d !! k = Some c -> c ∉ take k d -> c ∉ a -> ends_at_first d a.
Proof.
  intros Hk Hbefore. unfold ends_at_first.
  induction a as [|x a IH]; intros Ha; rewrite split_at_first_unfold.
  - simpl. rewrite <- (app_nil_r d) at 2. by rewrite strip_prefix_app.
  - destruct (strip_prefix d ((x :: a) ++ d)) as [r|] eqn:Hd.
    + exfalso. apply strip_prefix_inv in Hd.
      assert (Hc : ((x :: a) ++ d) !! k = Some c).
      { rewrite Hd. apply lookup_app_l_Some, Hk. }
      destruct (decide (k < length (x :: a))) as [Hlt|Hge].
      * rewrite lookup_app_l in Hc by done.
        apply Ha. by eapply list_elem_of_lookup_2.
      * rewrite lookup_app_r in Hc by lia.
        apply Hbefore. apply (list_elem_of_lookup_2 _ (k - length (x :: a))).
        rewrite lookup_take_lt; [done|]. simpl in *. lia.
    + simpl. rewrite IH; [done|]. by apply not_elem_of_cons in Ha as [_ Ha].
Qed.

(** In particular a file is well framed when its path has no line feed and
    its content has no backquote. *)
Lemma well_framed_plain (file : ProjectFile) :
  10%N ∉ path file -> 96%N ∉ content file -> well_framed file.
Proof.
  intros Hpath Hcontent. split.
  - apply (ends_at_first_absent _ _ 10%N 4); [done | by_evaluation | done].
  - apply (ends_at_first_absent _ _ 96%N 1); [done | by_evaluation | done].
Qed.

Lemma project_name_plain (projectName : jsstring) :
  10%N ∉ projectName -> ends_at_first (nl ++ nl) projectName.
Proof.
  intros Hname. apply (ends_at_first_absent _ _ 10%N 0); [done | | done].
  apply not_elem_of_nil.
Qed.

Lemma file_block_parts (file : ProjectFile) (rest : jsstring) :
  file_block file ++ rest
  = open_marker ++ path file ++ path_close
    ++ content file ++ content_close (path file) ++ rest.
Proof.
  unfold file_block, open_marker, path_close, content_close.
  by rewrite <- !app_assoc.
Qed.

Lemma split_blocks_blocks (files : list ProjectFile) (fuel : nat) :
  Forall well_framed files -> length files <= fuel ->
  split_blocks fuel (concat (file_block <$> files)) = Some files.
Proof.
  intros Hall. revert fuel.
  induction Hall as [|file files [Hpath Hcontent] _ IH]; intros fuel Hfuel.
  - by destruct fuel.
  - destruct fuel as [|fuel]; [simpl in Hfuel; lia|].
    rewrite fmap_cons. cbn [concat]. rewrite file_block_parts.
    change (open_marker ++ ?s) with (45%N :: drop 1 open_marker ++ s).
    cbn [split_blocks].
    change (45%N :: drop 1 open_marker ++ ?s) with (open_marker ++ s).
    rewrite strip_prefix_app. cbn [mbind option_bind].
    rewrite split_at_first_field by done. cbn [mbind option_bind].
    rewrite split_at_first_field by done. cbn [mbind option_bind].
    rewrite IH by (simpl in Hfuel; lia). destruct file; reflexivity.
Qed.

Lemma length_blocks (files : list ProjectFile) :
  length files <= length (concat (file_block <$> files)).
Proof.
  induction files as [|file files IH]; [done|].
  rewrite fmap_cons. cbn [concat length]. rewrite length_app.
  unfold file_block at 1. rewrite length_app. cbn [length JS.lit]. simpl length. lia.
Qed.

(** C5, as amended. The blob is read back into the original ordered (path,
    content) pairs whenever no field runs into its own terminator: the
    project name followed by the blank line, each path followed by the end
    of its opening line and the fence, each content followed by its closing
    fence and end-of-file line.  Names and paths without a line feed and
    contents without a backquote are of that kind ([project_name_plain],
    [well_framed_plain]). *)
Theorem blob_round_trip (files : list ProjectFile) (projectName : jsstring) :
  ends_at_first (nl ++ nl) projectName ->
  Forall well_framed files ->
  splitBlob (combinedContent files projectName) = Some files.
Proof.
  intros Hname Hfiles. unfold splitBlob, combinedContent.
  rewrite <- !app_assoc, strip_prefix_app. cbn [mbind option_bind].
  rewrite (app_assoc nl nl), split_at_first_field by done. cbn [mbind option_bind].
  apply split_blocks_blocks; [done | apply length_blocks].
Qed.

Lemma blob_round_trip_witness :
  let files := [ {| path := JS.lit "src/a.ts"; content := JS.lit "export const a = 1;" ++ nl |};
                 {| path := JS.lit "README";
                    content := JS.lit "# Title" ++ nl ++ JS.lit "```" ++ nl
                               ++ JS.lit "code" ++ nl ++ JS.lit "```" ++ nl |} ] in
  splitBlob (combinedContent files (JS.lit "demo")) = Some files.
Proof.
  intros files. apply (blob_round_trip files (JS.lit "demo")).
  - reflexivity.
  - repeat constructor; reflexivity.
Defined.

(** C5 as stated fails for arbitrary contents: two different lists of
    files, with the same paths, are assembled into the same blob, so no
    reader can return both; [splitBlob] returns the first. *)
Lemma blob_not_injective_counterexample :
  let framing := content_close (JS.lit "a.md") ++ open_marker ++ JS.lit "b.md" ++ path_close in
  let files1 := [ {| path := JS.lit "a.md"; content := JS.lit "1" |};
                  {| path := JS.lit "b.md"; content := JS.lit "2" ++ framing ++ JS.lit "3" |} ] in
  let files2 := [ {| path := JS.lit "a.md"; content := JS.lit "1" ++ framing ++ JS.lit "2" |};
                  {| path := JS.lit "b.md"; content := JS.lit "3" |} ] in
  files1 <> files2
  /\ combinedContent files1 (JS.lit "demo") = combinedContent files2 (JS.lit "demo")
  /\ splitBlob (combinedContent files2 (JS.lit "demo")) = Some files1
  /\ ~ exists split : jsstring -> option (list ProjectFile),
         forall files, split (combinedContent files (JS.lit "demo")) = Some files.
Proof.
  intros framing files1 files2.
  assert (Hne : files1 <> files2) by (by vm_compute).
  assert (Hblob : combinedContent files1 (JS.lit "demo") = combinedContent files2 (JS.lit "demo"))
    by (by vm_compute).
  split_and!; [done | done | by vm_compute |].
  intros [split Hsplit]. apply Hne.
  pose proof (Hsplit files1) as H1. pose proof (Hsplit files2) as H2.
  rewrite Hblob in H1. congruence.
Qed.

(** * Further properties *)

(** ** Directory patterns and path segments *)

Lemma segments_nonempty (p : jsstring) : segments p <> [].
Proof.
  induction p as [|c p IH]; simpl; [done|].
  destruct (c =? JS.slash)%N; [done|]. by destruct (segments p).
Qed.

Lemma segments_app_slash (x y : jsstring) :
  segments (x ++ JS.slash :: y) = segments x ++ segments y.
Proof.
  induction x as [|c x IH]; simpl; [done|].
  destruct (c =? JS.slash)%N; rewrite IH; [done|].
  pose proof (segments_nonempty x). by destruct (segments x).
Qed.

Lemma segments_slash_free (s : jsstring) : JS.slash ∉ s -> segments s = [s].
Proof.
  induction s as [|c s IH]; intros Hs; simpl; [done|].
  apply not_elem_of_cons in Hs as [Hc Hs].
  destruct (N.eqb_spec c JS.slash) as [E|_]; [congruence|].
  by rewrite IH.
Qed.

Lemma wrapped_segments (p : jsstring) :
  wrapped p = concat ((fun s => JS.slash :: s) <$> segments p) ++ [JS.slash].
Proof.
  unfold wrapped. change (JS.lit "/") with [JS.slash].
  induction p as [|c p IH]; [done|].
  simpl in *. destruct (N.eqb_spec c JS.slash) as [->|_].
  - rewrite fmap_cons. simpl. by rewrite <- IH.
  - pose proof (segments_nonempty p).
    destruct (segments p) as [|s rest]; [done|].
    rewrite !fmap_cons in *. simpl in *. injection IH as IH. by rewrite IH.
Qed.

Lemma wrapped_is_directory_pattern (name : jsstring) :
  JS.startsWith (wrapped name) (JS.lit "/") && JS.endsWith (wrapped name) (JS.lit "/") = true.
Proof.
  apply andb_true_iff. split; [reflexivity|].
  unfold wrapped. rewrite app_assoc. apply endsWith_intro.
Qed.

Lemma directory_pattern_segments
    (toLowerCase : jsstring -> jsstring) (p name : jsstring) :
  name <> [] -> JS.slash ∉ name ->
  matchesPattern toLowerCase p (wrapped name) = true <-> name ∈ segments p.
Proof.
  intros Hne Hfree.
  rewrite matchesPattern_directory by apply wrapped_is_directory_pattern.
  split.
  - intros (a & b & E)%includes_inv.
    assert (Hseg : segments (wrapped p) = segments (a ++ wrapped name ++ b)) by by rewrite E.
    unfold wrapped in Hseg. change (JS.lit "/") with [JS.slash] in Hseg.
    change ([JS.slash] ++ p ++ [JS.slash]) with ([] ++ JS.slash :: p ++ JS.slash :: []) in Hseg.
    replace (a ++ ([JS.slash] ++ name ++ [JS.slash]) ++ b)
      with (a ++ JS.slash :: name ++ JS.slash :: b) in Hseg
      by (by rewrite <- !app_assoc).
    rewrite !segments_app_slash, (segments_slash_free name) in Hseg by done.
    assert (Hin : name ∈ segments [] ++ segments p ++ segments []).
    { rewrite Hseg. apply elem_of_app. right. apply elem_of_app. left. left. }
    simpl in Hin. apply elem_of_cons in Hin as [->|Hin]; [done|].
    apply elem_of_app in Hin as [Hin|Hin]; [done|].
    apply list_elem_of_singleton in Hin. done.
  - intros (l1 & l2 & E)%list_elem_of_split.
    rewrite wrapped_segments, E, fmap_app, fmap_cons, concat_app. simpl.
    set (front := concat ((fun s => JS.slash :: s) <$> l1)).
    assert (Hback : exists back,
               concat ((fun s => JS.slash :: s) <$> l2) ++ [JS.slash] = JS.slash :: back).
    { destruct l2 as [|s l2]; simpl; eauto. }
    destruct Hback as [back Hback].
    replace ((front ++ JS.slash :: name ++ concat ((fun s => JS.slash :: s) <$> l2)) ++ [JS.slash])
      with (front ++ wrapped name ++ back).
    + apply includes_intro.
    + unfold wrapped. change (JS.lit "/") with [JS.slash].
      rewrite <- !app_assoc. simpl. rewrite <- app_assoc. by rewrite Hback.
Qed.

(** X1. A directory pattern [/name/], with [name] non-empty and free of
    slashes, matches a path exactly when [name] is one of the segments of
    the path between slashes: a segment that merely contains the name does
    not match. *)
Theorem directory_pattern_matches_whole_segments
    (toLowerCase : jsstring -> jsstring) (p name : jsstring) :
  name <> [] -> JS.slash ∉ name ->
  matchesPattern toLowerCase p (wrapped name) = true <-> name ∈ segments p.
Proof. apply directory_pattern_segments. Qed.

Lemma directory_pattern_matches_whole_segments_witness :
  matchesPattern JS.toLowerCase_ascii_only (JS.lit "app/node_modules/pkg/index.js")
    (JS.lit "/node_modules/") = true
  /\ matchesPattern JS.toLowerCase_ascii_only (JS.lit "app/my-node_modules-backup/index.js")
       (JS.lit "/node_modules/") = false.
Proof.
  split.
  - apply (directory_pattern_matches_whole_segments JS.toLowerCase_ascii_only
             (JS.lit "app/node_modules/pkg/index.js") (JS.lit "node_modules"));
      [discriminate | by_evaluation | by_evaluation].
  - apply not_true_is_false.
    intros H. apply (directory_pattern_matches_whole_segments JS.toLowerCase_ascii_only
             (JS.lit "app/my-node_modules-backup/index.js") (JS.lit "node_modules")) in H;
      [| discriminate | by_evaluation].
    revert H. by_evaluation.
Defined.

(** ** The order of the checks *)

(** The [for] loop with its early [return]: the first element that passes
    the test, with everything before it failing. *)
Lemma find_first_match {A} (f : A -> bool) (l : list A) (x : A) :
  x ∈ l -> f x = true ->
  exists first before after,
    l = before ++ first :: after
    /\ Forall (fun q => f q = false) before
    /\ f first = true
    /\ List.find f l = Some first.
Proof.
  induction l as [|a l IH]; intros Hx Hf; [by apply elem_of_nil in Hx|].
  simpl. destruct (f a) eqn:Ea.
  - exists a, [], l. by split_and!.
  - apply elem_of_cons in Hx as [->|Hx]; [congruence|].
    destruct (IH Hx Hf) as (first & before & after & -> & Hbefore & Hfirst & Hfind).
    exists first, (a :: before), after. split_and!; [done | by constructor | done | done].
Qed.

Lemma find_none_all {A} (f : A -> bool) (l : list A) :
  List.find f l = None -> Forall (fun q => f q = false) l.
Proof.
  induction l as [|a l IH]; simpl; [constructor|].
  destruct (f a) eqn:Ea; [done|]. intros H. constructor; auto.
Qed.

Lemma replace_backslashes_idemp (p : jsstring) :
  JS.replace_backslashes (JS.replace_backslashes p) = JS.replace_backslashes p.
Proof.
  unfold JS.replace_backslashes. rewrite <- list_fmap_compose.
  apply list_fmap_ext. intros _ c _. simpl.
  destruct (N.eqb_spec c JS.backslash); [reflexivity|].
  by destruct (N.eqb_spec c JS.backslash).
Qed.

Lemma replace_backslashes_ascii (p : jsstring) :
  JS.is_ascii p -> JS.is_ascii (JS.replace_backslashes p).
Proof.
  intros Hp. unfold JS.replace_backslashes. apply Forall_fmap.
  eapply Forall_impl; [exact Hp|].
  intros c Hc. simpl. by destruct (c =? JS.backslash)%N.
Qed.

(** X2. Below the size cap, when some pattern of the list matches the
    normalized path, the file is skipped and the reason names the first
    pattern in list order that matches: every pattern before it fails.  The
    verdict is the same whatever stage is put behind the loop, so the
    allow-list is not consulted. *)
Theorem first_matching_pattern_decides
    (toLowerCase : jsstring -> jsstring) (filePath pattern : jsstring) (fileSize : N) :
  (fileSize <= MAX_FILE_SIZE_BYTES)%N ->
  pattern ∈ IGNORED_PATTERNS ->
  matchesPattern toLowerCase (JS.replace_backslashes filePath) pattern = true ->
  exists first before after,
    IGNORED_PATTERNS = before ++ first :: after
    /\ Forall (fun q => matchesPattern toLowerCase (JS.replace_backslashes filePath) q = false)
         before
    /\ matchesPattern toLowerCase (JS.replace_backslashes filePath) first = true
    /\ shouldIgnoreFile toLowerCase filePath fileSize = skip (reason_pattern first)
    /\ forall allow_stage,
         shouldIgnoreFile_with toLowerCase IGNORED_PATTERNS allow_stage filePath fileSize
         = skip (reason_pattern first).
Proof.
  intros Hsize Hin Hmatch.
  destruct (find_first_match _ _ _ Hin Hmatch)
    as (first & before & after & Hsplit & Hbefore & Hfirst & Hfind).
  exists first, before, after. split_and!; [done | done | done | |].
  - unfold shouldIgnoreFile. rewrite shouldIgnoreFile_sized by done. by rewrite Hfind.
  - intros allow_stage. rewrite shouldIgnoreFile_sized by done. by rewrite Hfind.
Qed.

Lemma first_matching_pattern_decides_witness :
  exists first,
    shouldIgnoreFile JS.toLowerCase_ascii_only (JS.lit "dist/report.pdf") 1000
    = skip (reason_pattern first).
Proof.
  destruct (first_matching_pattern_decides JS.toLowerCase_ascii_only
              (JS.lit "dist/report.pdf") (JS.lit "*.pdf") 1000)
    as (first & _ & _ & _ & _ & _ & Hskip & _).
  - vm_compute. discriminate.
  - by_evaluation.
  - reflexivity.
  - by exists first.
Defined.

(** X4. The verdict depends on the path only through its normalized form:
    a path written with backslashes gets the verdict, reason included, of
    the same path written with slashes. *)
Theorem separators_are_normalized
    (toLowerCase : jsstring -> jsstring) (filePath : jsstring) (fileSize : N) :
  shouldIgnoreFile toLowerCase filePath fileSize
  = shouldIgnoreFile toLowerCase (JS.replace_backslashes filePath) fileSize.
Proof.
  unfold shouldIgnoreFile, shouldIgnoreFile_with.
  by rewrite replace_backslashes_idemp.
Qed.

(** X5. Every verdict is well formed: either the file is let through with
    no reason, or it is skipped with exactly one of four reasons: the size
    one, the pattern one naming a pattern of the list, the no-extension one
    or the extension one. *)
Theorem verdict_is_well_formed
    (toLowerCase : jsstring -> jsstring) (filePath : jsstring) (fileSize : N) :
  let v := shouldIgnoreFile toLowerCase filePath fileSize in
  let bare := BARE_FILENAME (JS.replace_backslashes filePath) in
  v = accept
  \/ (v = skip (reason_size fileSize) /\ (MAX_FILE_SIZE_BYTES < fileSize)%N)
  \/ (exists pattern, pattern ∈ IGNORED_PATTERNS /\ v = skip (reason_pattern pattern))
  \/ (v = skip (reason_no_extension bare) /\ EXTENSION toLowerCase bare = [])
  \/ (v = skip (reason_extension (EXTENSION toLowerCase bare))
      /\ EXTENSION toLowerCase bare <> []).
Proof.
  intros v bare. unfold v, shouldIgnoreFile, shouldIgnoreFile_with.
  destruct (N.ltb_spec MAX_FILE_SIZE_BYTES fileSize) as [Hbig|Hsmall]; [by right; left|].
  destruct (List.find _ _) as [pattern|] eqn:Hfind.
  - right; right; left. exists pattern. split; [|done].
    apply find_some in Hfind as [Hin _]. by apply list_elem_of_In.
  - rewrite allow_list_verdict_cases. fold bare.
    destruct (allowed bare || allowed (EXTENSION toLowerCase bare)); [by left|].
    destruct (EXTENSION toLowerCase bare) eqn:Hext; simpl.
    + right; right; right; left. done.
    + right; right; right; right. done.
Qed.

(** ** Extensions, in any letter case *)

Lemma ignored_patterns_ascii : Forall JS.is_ascii IGNORED_PATTERNS.
Proof. unfold JS.is_ascii. by_evaluation. Qed.

Lemma extension_glob_matches
    (toLowerCase : jsstring -> jsstring) (p stem e e' : jsstring) :
  JS.lowercases_ascii toLowerCase ->
  JS.is_ascii p -> JS.is_ascii e ->
  p = stem ++ JS.dot :: e' ->
  JS.ascii_lower <$> e' = JS.ascii_lower <$> e ->
  matchesPattern toLowerCase p (JS.lit "*." ++ e) = true.
Proof.
  intros Hlow Hp He -> Hcase. unfold matchesPattern.
  change (JS.startsWith (JS.lit "*." ++ e) (JS.lit "/")) with false.
  change (JS.startsWith (JS.lit "*." ++ e) (JS.lit "*.")) with (true && true && true).
  cbn [andb]. change (JS.substring (JS.lit "*." ++ e) 1) with (JS.dot :: e).
  rewrite !Hlow; [| by constructor | done].
  rewrite fmap_app, !fmap_cons, Hcase.
  apply endsWith_intro.
Qed.

(** X3. A file of at most 2 MiB whose ASCII path ends in a dot and an
    extension that the pattern list names as [*.ext], in any letter case,
    is skipped with a pattern reason; the allow-list is not reached. *)
Theorem ignored_extension_in_any_case
    (toLowerCase : jsstring -> jsstring)
    (filePath stem e e' : jsstring) (fileSize : N) :
  JS.lowercases_ascii toLowerCase ->
  (fileSize <= MAX_FILE_SIZE_BYTES)%N ->
  JS.lit "*." ++ e ∈ IGNORED_PATTERNS ->
  JS.is_ascii filePath ->
  JS.replace_backslashes filePath = stem ++ JS.dot :: e' ->
  JS.ascii_lower <$> e' = JS.ascii_lower <$> e ->
  exists pattern,
    pattern ∈ IGNORED_PATTERNS
    /\ matchesPattern toLowerCase (JS.replace_backslashes filePath) pattern = true
    /\ shouldIgnoreFile toLowerCase filePath fileSize = skip (reason_pattern pattern).
Proof.
  intros Hlow Hsize Hin Hascii Hpath Hcase.
  assert (He : JS.is_ascii e).
  { pose proof ignored_patterns_ascii as Hall.
    rewrite Forall_forall in Hall. specialize (Hall _ Hin).
    unfold JS.is_ascii in *. by apply Forall_app in Hall as [_ Hall]. }
  assert (Hmatch : matchesPattern toLowerCase (JS.replace_backslashes filePath)
                     (JS.lit "*." ++ e) = true).
  { eapply extension_glob_matches; eauto using replace_backslashes_ascii. }
  destruct (find_first_match _ _ _ Hin Hmatch)
    as (first & before & after & Hsplit & _ & Hfirst & Hfind).
  exists first. split_and!; [| done |].
  - rewrite Hsplit. apply elem_of_app. right. left.
  - unfold shouldIgnoreFile. rewrite shouldIgnoreFile_sized by done. by rewrite Hfind.
Qed.

Lemma ignored_extension_in_any_case_witness :
  exists pattern,
    shouldIgnoreFile JS.toLowerCase_ascii_only (JS.lit "assets\Logo.PNG") 2048
    = skip (reason_pattern pattern).
Proof.
  destruct (ignored_extension_in_any_case JS.toLowerCase_ascii_only
              (JS.lit "assets\Logo.PNG") (JS.lit "assets/Logo") (JS.lit "png") (JS.lit "PNG") 2048)
    as (pattern & _ & _ & Hskip).
  - exact toLowerCase_ascii_only_ok.
  - vm_compute. discriminate.
  - by_evaluation.
  - unfold JS.is_ascii. by_evaluation.
  - reflexivity.
  - reflexivity.
  - by exists pattern.
Defined.

Lemma BARE_FILENAME_keeps_extension (stem e : jsstring) :
  JS.slash ∉ e ->
  exists stem', BARE_FILENAME (stem ++ JS.dot :: e) = stem' ++ JS.dot :: e.
Proof.
  intros He.
  destruct (decide (JS.slash ∈ stem)) as [Hin|Hout].
  - apply list_elem_of_split_r in Hin as (a & b & -> & Hb).
    exists b. rewrite <- app_assoc. simpl.
    apply BARE_FILENAME_nested.
    rewrite elem_of_app, elem_of_cons. intros [?|[?|?]]; done.
  - exists stem. apply BARE_FILENAME_flat.
    rewrite elem_of_app, elem_of_cons. intros [?|[?|?]]; done.
Qed.

(** X6. A file of at most 2 MiB that no ignore pattern matches, and whose
    normalized path ends in a dot and an ASCII extension whose lower-case
    form is an entry of the allow-list, is accepted whatever the letter
    case of the extension and whatever its directory and base name. *)
Theorem allowed_extension_in_any_case
    (toLowerCase : jsstring -> jsstring)
    (filePath stem e : jsstring) (fileSize : N) :
  JS.lowercases_ascii toLowerCase ->
  (fileSize <= MAX_FILE_SIZE_BYTES)%N ->
  List.find (matchesPattern toLowerCase (JS.replace_backslashes filePath))
    IGNORED_PATTERNS = None ->
  JS.replace_backslashes filePath = stem ++ JS.dot :: e ->
  JS.is_ascii e -> JS.dot ∉ e -> JS.slash ∉ e ->
  allowed (JS.ascii_lower <$> JS.dot :: e) = true ->
  shouldIgnoreFile toLowerCase filePath fileSize = accept.
Proof.
  intros Hlow Hsize Hnone Hpath He Hdot Hslash Hallowed.
  unfold shouldIgnoreFile. rewrite shouldIgnoreFile_sized, Hnone by done.
  rewrite allow_list_verdict_cases, Hpath.
  destruct (BARE_FILENAME_keeps_extension stem e Hslash) as [stem' ->].
  rewrite EXTENSION_last_dot by done.
  rewrite Hlow by (by constructor).
  by rewrite Hallowed, orb_true_r.
Qed.

Lemma allowed_extension_in_any_case_witness :
  shouldIgnoreFile JS.toLowerCase_ascii_only (JS.lit "src\tools\Main.PY") 4096 = accept.
Proof.
  apply (allowed_extension_in_any_case JS.toLowerCase_ascii_only
           (JS.lit "src\tools\Main.PY") (JS.lit "src/tools/Main") (JS.lit "PY") 4096).
  - exact toLowerCase_ascii_only_ok.
  - vm_compute. discriminate.
  - reflexivity.
  - reflexivity.
  - unfold JS.is_ascii. by_evaluation.
  - by_evaluation.
  - by_evaluation.
  - reflexivity.
Defined.

(** ** What [handleFileChange] hands over *)

Lemma admitted_inv (toLowerCase : jsstring -> jsstring) (file : File) (pf : ProjectFile) :
  admitted toLowerCase file = Some pf ->
  path pf = filePath_of file
  /\ file_text file = Some (content pf)
  /\ (file_size file <= MAX_FILE_SIZE_BYTES)%N
  /\ Forall (fun pattern =>
               matchesPattern toLowerCase (JS.replace_backslashes (path pf)) pattern = false)
       IGNORED_PATTERNS
  /\ allowed (BARE_FILENAME (JS.replace_backslashes (path pf)))
     || allowed (EXTENSION toLowerCase (BARE_FILENAME (JS.replace_backslashes (path pf))))
     = true.
Proof.
  unfold admitted, shouldIgnoreFile, shouldIgnoreFile_with.
  destruct (N.ltb_spec MAX_FILE_SIZE_BYTES (file_size file)) as [Hbig|Hsmall]; [done|].
  destruct (List.find _ _) eqn:Hfind; [done|].
  rewrite allow_list_verdict_cases.
  destruct (allowed _ || allowed _) eqn:Hallow;
    [| by destruct (JS.truthy _)].
  simpl. destruct (file_text file) as [text|]; [|done].
  intros [= <-]. simpl. split_and!; [done | done | done | | done].
  by apply find_none_all.
Qed.

Lemma length_omap_le {A B} (f : A -> option B) (l : list A) :
  length (omap f l) <= length l.
Proof.
  induction l as [|a l IH]; cbn; [done|].
  destruct (f a); cbn; lia.
Qed.

(** X7. Every file handed to [onFilesSelected] comes from one of the first
    500 descriptors, carries that descriptor's path and the text read from
    it, is of at most 2 MiB, is matched by no ignore pattern, and has its
    bare filename or its extension on the allow-list; at most 500 files are
    handed over. *)
Theorem collected_files_passed_every_check
    (toLowerCase : jsstring -> jsstring) (htmlFiles : option (list File))
    (pf : ProjectFile) :
  pf ∈ onFilesSelected_files (handleFileChange toLowerCase htmlFiles) ->
  length (onFilesSelected_files (handleFileChange toLowerCase htmlFiles)) <= MAX_TOTAL_FILES
  /\ exists file,
       file ∈ take MAX_TOTAL_FILES (default [] htmlFiles)
       /\ path pf = filePath_of file
       /\ file_text file = Some (content pf)
       /\ (file_size file <= MAX_FILE_SIZE_BYTES)%N
       /\ Forall (fun pattern =>
                    matchesPattern toLowerCase (JS.replace_backslashes (path pf)) pattern
                    = false)
            IGNORED_PATTERNS
       /\ allowed (BARE_FILENAME (JS.replace_backslashes (path pf)))
          || allowed (EXTENSION toLowerCase (BARE_FILENAME (JS.replace_backslashes (path pf))))
          = true.
Proof.
  rewrite handleFileChange_accepted. intros Hin. split.
  - etrans; [apply length_omap_le|]. rewrite length_take. lia.
  - apply list_elem_of_omap in Hin as (file & Hfile & Hadm).
    exists file. split; [done|]. by apply admitted_inv.
Qed.

Lemma collected_files_passed_every_check_witness :
  let files := [sample_file "src/a.ts" 120 (Some "export const a = 1;");
                sample_file "node_modules/x/y.js" 50 (Some "module.exports = 0;")] in
  exists file,
    file ∈ files /\ filePath_of file = JS.lit "src/a.ts"
    /\ (file_size file <= MAX_FILE_SIZE_BYTES)%N.
Proof.
  intros files.
  destruct (collected_files_passed_every_check JS.toLowerCase_ascii_only (Some files)
              {| path := JS.lit "src/a.ts"; content := JS.lit "export const a = 1;" |})
    as (_ & file & Hin & Hpath & _ & Hsize & _).
  - vm_compute. left.
  - exists file. split_and!; [exact Hin | by rewrite <- Hpath | exact Hsize].
Defined.

(** X8. No collected path has a segment named after a directory pattern of
    the list ([.git], [node_modules], [dist], ...). *)
Theorem no_collected_path_in_ignored_directory
    (toLowerCase : jsstring -> jsstring) (htmlFiles : option (list File))
    (pf : ProjectFile) (name : jsstring) :
  pf ∈ onFilesSelected_files (handleFileChange toLowerCase htmlFiles) ->
  wrapped name ∈ IGNORED_PATTERNS ->
  name <> [] -> JS.slash ∉ name ->
  name ∉ segments (JS.replace_backslashes (path pf)).
Proof.
  rewrite handleFileChange_accepted.
  intros (file & _ & Hadm)%list_elem_of_omap Hpat Hne Hfree Hseg.
  apply admitted_inv in Hadm as (_ & _ & _ & Hnone & _).
  rewrite Forall_forall in Hnone. specialize (Hnone _ Hpat).
  apply (directory_pattern_segments toLowerCase) in Hseg; [|done|done].
  congruence.
Qed.

Lemma no_collected_path_in_ignored_directory_witness :
  let files := [sample_file "src/a.ts" 120 (Some "export const a = 1;");
                sample_file "node_modules/x/y.js" 50 (Some "module.exports = 0;")] in
  JS.lit "node_modules" ∉ segments (JS.lit "src/a.ts").
Proof.
  intros files.
  apply (no_collected_path_in_ignored_directory JS.toLowerCase_ascii_only (Some files)
           {| path := JS.lit "src/a.ts"; content := JS.lit "export const a = 1;" |}
           (JS.lit "node_modules")).
  - vm_compute. left.
  - by_evaluation.
  - discriminate.
  - by_evaluation.
Defined.

Lemma ledger_total_empty : ledger_total (∅ : gmap (list N) nat) = 0.
Proof. apply map_fold_empty. Qed.

(** X9. When a non-empty selection yields no file, every descriptor kept
    was skipped, the displayed error is the no-reviewable-files message and
    the console warning about the reasons is always issued, the ledger
    being non-empty.  For no selection at all is the error the
    folder-is-empty message. *)
Theorem nothing_collected_is_reported
    (toLowerCase : jsstring -> jsstring) (files : list File) :
  files <> [] ->
  onFilesSelected_files (handleFileChange toLowerCase (Some files)) = [] ->
  let out := handleFileChange toLowerCase (Some files) in
  error out = Some (JS.lit "No reviewable files found. Check file types or ignored patterns.")
  /\ last (console_warn out) = Some (JS.lit "Reasons for skipping all files:")
  /\ skippedFileCount (loop out) = length files `min` MAX_TOTAL_FILES
  /\ skippedReasons (loop out) <> ∅
  /\ fileSummary out
     = JS.lit "0 file(s) collected. " ++ show_nat (length files `min` MAX_TOTAL_FILES)
       ++ JS.lit " file(s) skipped."
  /\ forall htmlFiles,
       error (handleFileChange toLowerCase htmlFiles)
       <> Some (JS.lit "No files selected or folder is empty.").
Proof.
  intros Hne Hnone out.
  destruct (handleFileChange_nonempty toLowerCase files Hne) as (Hloop & Hacc & Hsum & Hwarn & Herr).
  fold out in Hloop, Hacc, Hsum, Hwarn, Herr.
  destruct (run_loop_spec toLowerCase (take MAX_TOTAL_FILES files)) as (_ & Hn & Hs & Hl).
  rewrite <- Hloop in Hn, Hs, Hl, Hacc, Hsum, Hwarn, Herr.
  fold out in Hnone. rewrite Hacc in Hnone. rewrite Hnone in Hn, Herr, Hwarn.
  cbn [length] in Hn. rewrite Hn, length_take in Hs.
  assert (Hpos : 0 < length files) by (destruct files; [done | cbn [length]; lia]).
  assert (Hcap : 0 < MAX_TOTAL_FILES) by (unfold MAX_TOTAL_FILES; lia).
  assert (Hsk : skippedFileCount (loop out) = length files `min` MAX_TOTAL_FILES) by lia.
  assert (Hkept : (0 <? length (take MAX_TOTAL_FILES files))%nat = true).
  { apply Nat.ltb_lt. rewrite length_take. lia. }
  assert (Hledger : skippedReasons (loop out) <> ∅).
  { intros E. rewrite E, ledger_total_empty in Hl. lia. }
  rewrite Hkept in Herr, Hwarn. cbn [length Nat.eqb andb] in Herr, Hwarn.
  rewrite bool_decide_eq_false_2 in Hwarn by done. cbn [negb] in Hwarn.
  split_and!.
  - done.
  - rewrite Hwarn. by destruct (MAX_TOTAL_FILES <? length files)%nat.
  - done.
  - done.
  - rewrite Hsum. unfold summary_of. rewrite Hn, Hsk.
    assert (Hpos' : (0 <? length files `min` MAX_TOTAL_FILES)%nat = true).
    { apply Nat.ltb_lt. lia. }
    rewrite Hpos'. reflexivity.
  - intros [[|first rest]|]; [done | | done].
    destruct (handleFileChange_nonempty toLowerCase (first :: rest)) as (_ & _ & _ & _ & ->);
      [done|].
    assert (Hk : (length (take MAX_TOTAL_FILES (first :: rest)) =? 0)%nat = false) by done.
    assert (Hk' : (0 <? length (take MAX_TOTAL_FILES (first :: rest)))%nat = true) by done.
    rewrite Hk, Hk', andb_false_r, andb_true_r.
    destruct (length (projectFiles _) =? 0)%nat; [done|].
    destruct (MAX_TOTAL_FILES <? length (first :: rest))%nat; [|done].
    by intros [= E].
Qed.

Lemma nothing_collected_is_reported_witness :
  let files := [sample_file "node_modules/x/y.js" 50 (Some "module.exports = 0;");
                sample_file "logo.png" 900 None] in
  error (handleFileChange JS.toLowerCase_ascii_only (Some files))
  = Some (JS.lit "No reviewable files found. Check file types or ignored patterns.").
Proof.
  intros files.
  apply (nothing_collected_is_reported JS.toLowerCase_ascii_only files);
    [discriminate | reflexivity].
Defined.

(** ** The folder name *)

Lemma split_head_first_segment (s : jsstring) :
  head (segments s) = Some (JS.split_head s JS.slash).
Proof.
  induction s as [|c s IH]; simpl; [done|].
  destruct (c =? JS.slash)%N; [done|].
  destruct (segments s); simpl in *; [done|]. by injection IH as ->.
Qed.

Lemma split_head_slash_free (s : jsstring) : JS.slash ∉ JS.split_head s JS.slash.
Proof.
  induction s as [|c s IH]; simpl; [apply not_elem_of_nil|].
  destruct (N.eqb_spec c JS.slash) as [|Hne]; [apply not_elem_of_nil|].
  apply not_elem_of_cons. split; [congruence | done].
Qed.

Lemma split_head_prefix (s : jsstring) : JS.split_head s JS.slash `prefix_of` s.
Proof.
  induction s as [|c s IH]; simpl; [done|].
  destruct (c =? JS.slash)%N; [apply prefix_nil | by apply prefix_cons].
Qed.

(** X10. For a non-empty selection the folder name given to the caller is
    the one displayed; it depends on the first descriptor only, never holds
    a slash, and is the first segment of that descriptor's relative path,
    or [Selected_Files] when the relative path is empty. *)
Theorem folder_name_is_first_segment
    (toLowerCase : jsstring -> jsstring) (first : File) (rest : list File) :
  let out := handleFileChange toLowerCase (Some (first :: rest)) in
  selectedFolderName out = onFilesSelected_folder out
  /\ (forall rest', onFilesSelected_folder (handleFileChange toLowerCase (Some (first :: rest')))
                    = onFilesSelected_folder out)
  /\ exists name,
       onFilesSelected_folder out = Some name
       /\ (JS.slash ∉ name)
       /\ (file_webkitRelativePath first <> [] ->
           head (segments (file_webkitRelativePath first)) = Some name
           /\ (name `prefix_of` file_webkitRelativePath first))
       /\ (file_webkitRelativePath first = [] -> name = JS.lit "Selected_Files").
Proof.
  intros out. split_and!; [done | done |].
  unfold out. cbn [handleFileChange onFilesSelected_folder].
  destruct (file_webkitRelativePath first) as [|c s] eqn:Hpath; cbn [JS.truthy].
  - exists (JS.lit "Selected_Files"). split_and!; [done | by_evaluation | done | done].
  - exists (JS.split_head (c :: s) JS.slash).
    split_and!; [done | apply split_head_slash_free | | done].
    intros _. split; [apply split_head_first_segment | apply split_head_prefix].
Qed.

(** ** Runs of the loop *)

Lemma count_bump (r r' : jsstring) (m : gmap (list N) nat) :
  default 0 (bump r m !! r')
  = default 0 (m !! r') + (if decide (r = r') then 1 else 0).
Proof.
  unfold bump. destruct (decide (r = r')) as [->|Hne].
  - rewrite lookup_insert_eq. simpl. lia.
  - rewrite lookup_insert_ne by done. lia.
Qed.

Section LoopComposition.

Variable toLowerCase : jsstring -> jsstring.

(** One iteration adds to any state what it adds to the initial one. *)
Lemma loop_body_from (st : LoopState) (file : File) :
  let s := loop_body toLowerCase st file in
  let s0 := loop_body toLowerCase loop_init file in
  projectFiles s = projectFiles st ++ projectFiles s0
  /\ processedFileCount s = processedFileCount st + processedFileCount s0
  /\ skippedFileCount s = skippedFileCount st + skippedFileCount s0
  /\ console_error s = console_error st ++ console_error s0
  /\ forall r, default 0 (skippedReasons s !! r)
               = default 0 (skippedReasons st !! r) + default 0 (skippedReasons s0 !! r).
Proof.
  unfold loop_body.
  destruct (ignore _); [destruct (reason _) as [r'|]; [destruct (JS.truthy r')|]|
                        destruct (file_text file)];
    cbn [projectFiles processedFileCount skippedFileCount console_error skippedReasons loop_init];
    rewrite ?app_nil_r; split_and!; try done; try lia;
    intros r; rewrite ?count_bump, ?lookup_empty; simpl; lia.
Qed.

Lemma foldl_from (files : list File) (st : LoopState) :
  let s := foldl (loop_body toLowerCase) st files in
  let s0 := run_loop toLowerCase files in
  projectFiles s = projectFiles st ++ projectFiles s0
  /\ processedFileCount s = processedFileCount st + processedFileCount s0
  /\ skippedFileCount s = skippedFileCount st + skippedFileCount s0
  /\ console_error s = console_error st ++ console_error s0
  /\ forall r, default 0 (skippedReasons s !! r)
               = default 0 (skippedReasons st !! r) + default 0 (skippedReasons s0 !! r).
Proof.
  unfold run_loop. revert st.
  induction files as [|file files IH]; intros st; cbn [foldl].
  - cbn. rewrite !app_nil_r. split_and!; try done; try lia.
  - destruct (IH (loop_body toLowerCase st file)) as (Hp & Hn & Hs & He & Hl).
    destruct (IH (loop_body toLowerCase loop_init file)) as (Hp0 & Hn0 & Hs0 & He0 & Hl0).
    destruct (loop_body_from st file) as (Bp & Bn & Bs & Be & Bl).
    rewrite Hp, Hn, Hs, He, Hp0, Hn0, Hs0, He0, Bp, Bn, Bs, Be.
    rewrite <- !app_assoc. split_and!; try done; try lia.
    intros r. rewrite Hl, Hl0, Bl. lia.
Qed.

End LoopComposition.

(** X11. The loop composes: running it over two lists put end to end
    collects the files of the first run followed by those of the second,
    logs the read errors in the same order, and adds up the counters and,
    reason by reason, the ledgers. *)
Theorem run_loop_app
    (toLowerCase : jsstring -> jsstring) (files1 files2 : list File) :
  let s := run_loop toLowerCase (files1 ++ files2) in
  let s1 := run_loop toLowerCase files1 in
  let s2 := run_loop toLowerCase files2 in
  projectFiles s = projectFiles s1 ++ projectFiles s2
  /\ processedFileCount s = processedFileCount s1 + processedFileCount s2
  /\ skippedFileCount s = skippedFileCount s1 + skippedFileCount s2
  /\ console_error s = console_error s1 ++ console_error s2
  /\ forall r, default 0 (skippedReasons s !! r)
               = default 0 (skippedReasons s1 !! r) + default 0 (skippedReasons s2 !! r).
Proof.
  intros s s1 s2. unfold s, run_loop. rewrite foldl_app.
  apply foldl_from.
Qed.

Lemma ledger_total_ge (m : gmap (list N) nat) (r : jsstring) (n : nat) :
  m !! r = Some n -> n <= ledger_total m.
Proof.
  intros Hr. unfold ledger_total.
  rewrite (map_fold_delete_L _ _ r n m); [lia | intros; lia | done].
Qed.

Lemma ledger_entries_positive (toLowerCase : jsstring -> jsstring) (files : list File)
    (st : LoopState) :
  map_Forall (fun r n => JS.truthy r = true /\ 1 <= n) (skippedReasons st) ->
  map_Forall (fun r n => JS.truthy r = true /\ 1 <= n)
    (skippedReasons (foldl (loop_body toLowerCase) st files)).
Proof.
  revert st. induction files as [|file files IH]; intros st Hst; [done|].
  cbn [foldl]. apply IH.
  destruct (admitted toLowerCase file) as [pf|] eqn:Hadm.
  - by rewrite (loop_body_collects toLowerCase st file pf Hadm).
  - destruct (loop_body_skips toLowerCase st file Hadm) as (r & Hr & _ & _ & _ & ->).
    unfold bump. apply map_Forall_insert_2; [|done]. split; [done | lia].
Qed.

(** X12. Every entry of the skip ledger has a non-empty reason as key and
    a count of at least one and at most the number of skipped files. *)
Theorem ledger_entries_are_counts
    (toLowerCase : jsstring -> jsstring) (files : list File) (r : jsstring) (n : nat) :
  skippedReasons (run_loop toLowerCase files) !! r = Some n ->
  r <> [] /\ 1 <= n <= skippedFileCount (run_loop toLowerCase files).
Proof.
  intros Hr.
  assert (Hall : map_Forall (fun r n => JS.truthy r = true /\ 1 <= n)
                   (skippedReasons (run_loop toLowerCase files))).
  { apply ledger_entries_positive. apply map_Forall_empty. }
  destruct (Hall r n Hr) as [Htruthy Hpos].
  destruct (run_loop_spec toLowerCase files) as (_ & _ & _ & Hl).
  pose proof (ledger_total_ge _ _ _ Hr).
  split; [by destruct r | lia].
Qed.

Lemma ledger_entries_are_counts_witness :
  let files := [sample_file "a/node_modules/x.js" 50 None;
                sample_file "b/node_modules/y.js" 60 None;
                sample_file "src/a.ts" 120 None] in
  1 <= 2 <= skippedFileCount (run_loop JS.toLowerCase_ascii_only files).
Proof.
  intros files.
  apply (ledger_entries_are_counts JS.toLowerCase_ascii_only files
           (JS.lit "Matches ignore pattern: /node_modules/") 2).
  by vm_compute.
Defined.

(** ** The size of the blob *)

Lemma utf8_length_app_ascii (a b : jsstring) :
  JS.is_ascii a -> JS.utf8_length (a ++ b) = (N.of_nat (length a) + JS.utf8_length b)%N.
Proof.
  induction 1 as [|c a Hc _ IH]; [cbn; lia|].
  cbn [app length JS.utf8_length].
  assert (Hlt : (c <? 128)%N = true) by by apply N.ltb_lt.
  rewrite Hlt, IH. lia.
Qed.

(** The count is additive when the second text does not start with a low
    surrogate, which could pair up with the end of the first. *)
Lemma utf8_length_app (a b : jsstring) :
  match b with [] => True | d :: _ => JS.is_low_surrogate d = false end ->
  JS.utf8_length (a ++ b) = (JS.utf8_length a + JS.utf8_length b)%N.
Proof.
  intros Hb.
  assert (Hboth : JS.utf8_length (a ++ b) = (JS.utf8_length a + JS.utf8_length b)%N
                  /\ forall c, JS.utf8_length ((c :: a) ++ b)
                               = (JS.utf8_length (c :: a) + JS.utf8_length b)%N);
    [|by destruct Hboth].
  induction a as [|x a [IH0 IH1]].
  - split; [done|]. intros c. cbn [app JS.utf8_length].
    destruct (c <? 128)%N; [lia|]. destruct (c <? 2048)%N; [lia|].
    destruct (JS.is_high_surrogate c); [|lia].
    destruct b as [|d b']; [done|]. rewrite Hb. lia.
  - split; [apply IH1|]. intros c.
    specialize (IH1 x). cbn [app] in IH0, IH1 |- *.
    change (JS.utf8_length (c :: x :: a ++ b))
      with (if (c <? 128)%N then 1 + JS.utf8_length (x :: a ++ b)
            else if (c <? 2048)%N then 2 + JS.utf8_length (x :: a ++ b)
            else if JS.is_high_surrogate c then
              if JS.is_low_surrogate x then 4 + JS.utf8_length (a ++ b)
              else 3 + JS.utf8_length (x :: a ++ b)
            else 3 + JS.utf8_length (x :: a ++ b))%N.
    change (JS.utf8_length (c :: x :: a))
      with (if (c <? 128)%N then 1 + JS.utf8_length (x :: a)
            else if (c <? 2048)%N then 2 + JS.utf8_length (x :: a)
            else if JS.is_high_surrogate c then
              if JS.is_low_surrogate x then 4 + JS.utf8_length a
              else 3 + JS.utf8_length (x :: a)
            else 3 + JS.utf8_length (x :: a))%N.
    rewrite IH0, IH1.
    destruct (c <? 128)%N; [lia|]. destruct (c <? 2048)%N; [lia|].
    destruct (JS.is_high_surrogate c); [|lia].
    destruct (JS.is_low_surrogate x); lia.
Qed.

Lemma utf8_length_block (file : ProjectFile) (rest : jsstring) :
  JS.utf8_length (file_block file ++ rest) = (block_size file + JS.utf8_length rest)%N.
Proof.
  unfold file_block, block_size, nl. rewrite <- !app_assoc.
  rewrite !utf8_length_app_ascii by (unfold JS.is_ascii; by_evaluation).
  rewrite utf8_length_app by reflexivity.
  rewrite !utf8_length_app_ascii by (unfold JS.is_ascii; by_evaluation).
  rewrite utf8_length_app by reflexivity.
  rewrite !utf8_length_app_ascii by (unfold JS.is_ascii; by_evaluation).
  rewrite utf8_length_app by reflexivity.
  rewrite !utf8_length_app_ascii by (unfold JS.is_ascii; by_evaluation).
  change (length (JS.lit "--- File Path: ")) with 15.
  change (length (JS.lit " ---")) with 4.
  change (length (JS.lit "```")) with 3.
  change (length (JS.lit "--- End of File: ")) with 17.
  change (length [10%N]) with 1.
  lia.
Qed.

Lemma utf8_length_blocks (files : list ProjectFile) :
  JS.utf8_length (concat (file_block <$> files))
  = foldr (fun file acc => block_size file + acc)%N 0%N files.
Proof.
  induction files as [|file files IH]; [done|].
  rewrite fmap_cons. cbn [concat foldr]. by rewrite utf8_length_block, IH.
Qed.

Lemma utf8_length_blob (files : list ProjectFile) (projectName : jsstring) :
  JS.utf8_length (combinedContent files projectName) = blob_size files projectName.
Proof.
  unfold combinedContent, blob_size, nl. rewrite <- !app_assoc.
  rewrite utf8_length_app_ascii by (unfold JS.is_ascii; by_evaluation).
  rewrite utf8_length_app by reflexivity.
  rewrite !utf8_length_app_ascii by (unfold JS.is_ascii; by_evaluation).
  rewrite utf8_length_blocks.
  change (length (JS.lit "Project Name: ")) with 14.
  change (length [10%N]) with 1. lia.
Qed.

Lemma blob_size_sublist (files1 files2 : list ProjectFile) (projectName : jsstring) :
  files1 `sublist_of` files2 ->
  (blob_size files1 projectName <= blob_size files2 projectName)%N.
Proof.
  unfold blob_size. induction 1 as [|file l1 l2 _ IH|file l1 l2 _ IH]; cbn [foldr]; lia.
Qed.

(** X13. The size measured against the ceiling is given by the sizes of the
    texts: 16 bytes and the project name for the header, and for each file
    52 bytes, twice its path and its content, the sizes being UTF-8 sizes.
    This holds for every text, ill-formed UTF-16 included. *)
Theorem blob_size_formula (files : list ProjectFile) (projectName : jsstring) :
  JS.utf8_length (combinedContent files projectName)
  = (16 + JS.utf8_length projectName
     + foldr (fun file acc =>
                52 + 2 * JS.utf8_length (path file) + JS.utf8_length (content file) + acc)
         0 files)%N.
Proof. apply utf8_length_blob. Qed.

Section ReviewFacts.

Variable toLowerCase : jsstring -> jsstring.
Variable SYSTEM_INSTRUCTION_PROJECT : jsstring.
Variable API_KEY : option jsstring.
Variable generateContent : Request -> option jsstring + Thrown.

(** The four ways a call ends. *)
Lemma review_cases (files : list ProjectFile) (projectName : jsstring) :
  let size := JS.utf8_length (combinedContent files projectName) in
  let request := {| req_model := model; req_contents := combinedContent files projectName;
                    req_systemInstruction := SYSTEM_INSTRUCTION_PROJECT |} in
  let review := getProjectReviewFeedback toLowerCase SYSTEM_INSTRUCTION_PROJECT API_KEY
                  generateContent in
  (api_key_missing API_KEY = true /\ review files projectName = (Rejected msg_no_api_key, []))
  \/ (api_key_missing API_KEY = false /\ files = []
      /\ review files projectName = (Rejected msg_no_files, []))
  \/ (api_key_missing API_KEY = false /\ files <> [] /\ (MAX_CONTENT_LENGTH_BYTES < size)%N
      /\ review files projectName
         = (Rejected (msg_too_large size), [ConsoleWarn (warn_too_large size)]))
  \/ (api_key_missing API_KEY = false /\ files <> [] /\ (size <= MAX_CONTENT_LENGTH_BYTES)%N
      /\ ((exists text, generateContent request = inl text
                        /\ review files projectName = (Resolved text, [GenerateContent request]))
          \/ (exists e, generateContent request = inr e
                        /\ review files projectName
                           = (Rejected (translate_failure toLowerCase e),
                              [GenerateContent request; ConsoleError log_fetch_error])))).
Proof.
  intros size request review. subst size request review.
  unfold getProjectReviewFeedback.
  destruct (api_key_missing API_KEY); [by left|]. right.
  destruct files as [|file files]; [by left|]. right.
  cbn [length Nat.eqb].
  destruct (N.ltb_spec MAX_CONTENT_LENGTH_BYTES
              (JS.utf8_length (combinedContent (file :: files) projectName)))
    as [Hbig|Hsmall]; [by left|]. right.
  split_and!; [done | done | done |].
  destruct (generateContent _) as [text|e]; [left; by exists text | right; by exists e].
Qed.

End ReviewFacts.

(** X14. Whatever the inputs, one call of [getProjectReviewFeedback] calls
    the service at most once, and then with the model name, the assembled
    blob and the system instruction; it does not call it at all exactly
    when the key is missing, the list is empty or the blob is over the
    ceiling. *)
Theorem at_most_one_remote_call
    (toLowerCase : jsstring -> jsstring) (SYSTEM_INSTRUCTION_PROJECT : jsstring)
    (API_KEY : option jsstring) (generateContent : Request -> option jsstring + Thrown)
    (files : list ProjectFile) (projectName : jsstring) :
  let run := getProjectReviewFeedback toLowerCase SYSTEM_INSTRUCTION_PROJECT API_KEY
               generateContent files projectName in
  let request := {| req_model := model; req_contents := combinedContent files projectName;
                    req_systemInstruction := SYSTEM_INSTRUCTION_PROJECT |} in
  remote_calls (snd run) <= 1
  /\ (requests (snd run) = [] \/ requests (snd run) = [request])
  /\ (remote_calls (snd run) = 0 <->
      api_key_missing API_KEY = true \/ files = []
      \/ (MAX_CONTENT_LENGTH_BYTES < JS.utf8_length (combinedContent files projectName))%N).
Proof.
  intros run request. unfold run, request.
  destruct (review_cases toLowerCase SYSTEM_INSTRUCTION_PROJECT API_KEY generateContent
              files projectName)
    as [[Hkey ->] | [(Hkey & Hfiles & ->) | [(Hkey & Hfiles & Hsize & ->)
         | (Hkey & Hfiles & Hsize & [(text & _ & ->) | (e & _ & ->)])]]];
    cbn [snd]; (split_and!; [vm_compute; lia | auto |]).
  - split; [by left | done].
  - split; [by right; left | done].
  - split; [by right; right | done].
  - split; [by vm_compute|]. intros [?|[?|?]]; [congruence | done | lia].
  - split; [by vm_compute|]. intros [?|[?|?]]; [congruence | done | lia].
Qed.

(** X15. The call resolves exactly when the key is configured, the list is
    not empty, the blob is within the ceiling and the service answers; what
    it resolves to is the text of the answer, unchanged, or nothing when the
    answer has no text. *)
Theorem resolves_with_the_service_text
    (toLowerCase : jsstring -> jsstring) (SYSTEM_INSTRUCTION_PROJECT : jsstring)
    (API_KEY : option jsstring) (generateContent : Request -> option jsstring + Thrown)
    (files : list ProjectFile) (projectName : jsstring) (text : option jsstring) :
  let run := getProjectReviewFeedback toLowerCase SYSTEM_INSTRUCTION_PROJECT API_KEY
               generateContent files projectName in
  let request := {| req_model := model; req_contents := combinedContent files projectName;
                    req_systemInstruction := SYSTEM_INSTRUCTION_PROJECT |} in
  fst run = Resolved text <->
  api_key_missing API_KEY = false /\ files <> []
  /\ (JS.utf8_length (combinedContent files projectName) <= MAX_CONTENT_LENGTH_BYTES)%N
  /\ generateContent request = inl text.
Proof.
  intros run request. unfold run, request.
  destruct (review_cases toLowerCase SYSTEM_INSTRUCTION_PROJECT API_KEY generateContent
              files projectName)
    as [[Hkey ->] | [(Hkey & Hfiles & ->) | [(Hkey & Hfiles & Hsize & ->)
         | (Hkey & Hfiles & Hsize & [(text' & Hgen & ->) | (e & Hgen & ->)])]]];
    cbn [fst]; split; try done.
  - intros (? & _). congruence.
  - intros (_ & ? & _). done.
  - intros (_ & _ & ? & _). lia.
  - intros [= ->]. done.
  - intros (_ & _ & _ & ?). congruence.
  - intros (_ & _ & _ & ?). congruence.
Qed.

(** X16. Without an API key, be it undefined or the empty string, every
    call is rejected with the missing-key message before anything else
    happens: nothing is logged and the service is not called, whatever the
    files. *)
Theorem missing_key_rejects_every_call
    (toLowerCase : jsstring -> jsstring) (SYSTEM_INSTRUCTION_PROJECT : jsstring)
    (API_KEY : option jsstring) (generateContent : Request -> option jsstring + Thrown)
    (files : list ProjectFile) (projectName : jsstring) :
  API_KEY = None \/ API_KEY = Some [] ->
  getProjectReviewFeedback toLowerCase SYSTEM_INSTRUCTION_PROJECT API_KEY
    generateContent files projectName
  = (Rejected msg_no_api_key, []).
Proof. by intros [-> | ->]. Qed.

Lemma missing_key_rejects_every_call_witness :
  getProjectReviewFeedback JS.toLowerCase_ascii_only [] (Some [])
    (fun _ => inl (Some (JS.lit "Project Review for: demo")))
    [ {| path := JS.lit "src/a.ts"; content := JS.lit "export const a = 1;" |} ] (JS.lit "demo")
  = (Rejected (JS.lit "Gemini API key is not configured. Please set the API_KEY environment variable."), []).
Proof.
  apply (missing_key_rejects_every_call JS.toLowerCase_ascii_only [] (Some [])).
  by right.
Defined.

Lemma translate_failure_shape (toLowerCase : jsstring -> jsstring) (e : Thrown) :
  translate_failure toLowerCase e <> []
  /\ (e = ThrownOther -> translate_failure toLowerCase e = msg_unknown)
  /\ (forall message, e = ThrownError message ->
        (JS.includes message (JS.lit "API key not valid") = true ->
         translate_failure toLowerCase e = msg_invalid_key)
        /\ (translate_failure toLowerCase e = msg_invalid_key
            \/ translate_failure toLowerCase e = msg_api_too_large
            \/ (translate_failure toLowerCase e = msg_failed message
                /\ JS.endsWith (translate_failure toLowerCase e) message = true))).
Proof.
  split_and!.
  - destruct e as [message|]; [|done]. unfold translate_failure.
    repeat (match goal with |- context [if ?b then _ else _] => destruct b end); done.
  - by intros ->.
  - intros message ->. unfold translate_failure. split.
    + by intros ->.
    + repeat (match goal with |- context [if ?b then _ else _] => destruct b end); auto.
      right; right. split; [done|]. apply endsWith_intro.
Qed.

(** X17. When the service fails, the call is rejected after that one
    attempt, with the failure logged.  The message is never empty: a thrown
    value that is not an [Error] gives the unknown-error message; an error
    whose message contains "API key not valid" gives the invalid-key
    message, before any other test; any other error gives the
    too-large-for-the-API message or the generic one, which ends with the
    message of the service. *)
Theorem remote_failure_is_translated
    (toLowerCase : jsstring -> jsstring) (SYSTEM_INSTRUCTION_PROJECT : jsstring)
    (API_KEY : option jsstring) (generateContent : Request -> option jsstring + Thrown)
    (files : list ProjectFile) (projectName : jsstring) (e : Thrown) :
  let request := {| req_model := model; req_contents := combinedContent files projectName;
                    req_systemInstruction := SYSTEM_INSTRUCTION_PROJECT |} in
  api_key_missing API_KEY = false ->
  files <> [] ->
  (JS.utf8_length (combinedContent files projectName) <= MAX_CONTENT_LENGTH_BYTES)%N ->
  generateContent request = inr e ->
  getProjectReviewFeedback toLowerCase SYSTEM_INSTRUCTION_PROJECT API_KEY
    generateContent files projectName
  = (Rejected (translate_failure toLowerCase e),
     [GenerateContent request; ConsoleError log_fetch_error])
  /\ translate_failure toLowerCase e <> []
  /\ (e = ThrownOther -> translate_failure toLowerCase e = msg_unknown)
  /\ (forall message, e = ThrownError message ->
        (JS.includes message (JS.lit "API key not valid") = true ->
         translate_failure toLowerCase e = msg_invalid_key)
        /\ (translate_failure toLowerCase e = msg_invalid_key
            \/ translate_failure toLowerCase e = msg_api_too_large
            \/ (translate_failure toLowerCase e = msg_failed message
                /\ JS.endsWith (translate_failure toLowerCase e) message = true))).
Proof.
  intros request Hkey Hfiles Hsize Hgen. split; [|apply translate_failure_shape].
  destruct (review_cases toLowerCase SYSTEM_INSTRUCTION_PROJECT API_KEY generateContent
              files projectName)
    as [[Hkey' _] | [(_ & Hfiles' & _) | [(_ & _ & Hsize' & _)
         | (_ & _ & _ & [(text & Hgen' & _) | (e' & Hgen' & ->)])]]].
  - congruence.
  - done.
  - lia.
  - unfold request in Hgen. cbv beta zeta in Hgen'. congruence.
  - unfold request in Hgen |- *. cbv beta zeta in Hgen' |- *. congruence.
Qed.

Lemma remote_failure_is_translated_witness :
  let files := [ {| path := JS.lit "src/a.ts"; content := JS.lit "export const a = 1;" |} ] in
  fst (getProjectReviewFeedback JS.toLowerCase_ascii_only [] (Some (JS.lit "secret-key"))
         (fun _ => inr (ThrownError (JS.lit "400 Bad Request: API key not valid. Payload size exceeded.")))
         files (JS.lit "demo"))
  = Rejected (JS.lit "Invalid Gemini API Key. Please check your API_KEY environment variable.").
Proof.
  intros files.
  destruct (remote_failure_is_translated JS.toLowerCase_ascii_only [] (Some (JS.lit "secret-key"))
              (fun _ => inr (ThrownError (JS.lit "400 Bad Request: API key not valid. Payload size exceeded.")))
              files (JS.lit "demo")
              (ThrownError (JS.lit "400 Bad Request: API key not valid. Payload size exceeded.")))
    as (-> & _); [reflexivity | discriminate | by vm_compute | reflexivity |].
  reflexivity.
Defined.

(** X18. A list that is too large stays too large when files are added to
    it, anywhere: with the key configured, if the blob of a non-empty list
    is over the ceiling, the call for any list of which it is a
    subsequence is rejected with the too-large message and without calling
    the service. *)
Theorem too_large_is_inherited
    (toLowerCase : jsstring -> jsstring) (SYSTEM_INSTRUCTION_PROJECT : jsstring)
    (API_KEY : option jsstring) (generateContent : Request -> option jsstring + Thrown)
    (files more : list ProjectFile) (projectName : jsstring) :
  api_key_missing API_KEY = false ->
  files <> [] ->
  files `sublist_of` more ->
  (MAX_CONTENT_LENGTH_BYTES < JS.utf8_length (combinedContent files projectName))%N ->
  let size := JS.utf8_length (combinedContent more projectName) in
  (JS.utf8_length (combinedContent files projectName) <= size)%N
  /\ getProjectReviewFeedback toLowerCase SYSTEM_INSTRUCTION_PROJECT API_KEY
       generateContent more projectName
     = (Rejected (msg_too_large size), [ConsoleWarn (warn_too_large size)]).
Proof.
  intros Hkey Hfiles Hsub Hbig size.
  assert (Hle : (JS.utf8_length (combinedContent files projectName) <= size)%N).
  { unfold size. rewrite !utf8_length_blob. by apply blob_size_sublist. }
  split; [done|].
  destruct (review_cases toLowerCase SYSTEM_INSTRUCTION_PROJECT API_KEY generateContent
              more projectName)
    as [[Hkey' _] | [(_ & -> & _) | [(_ & _ & _ & ->)
         | (_ & _ & Hsize' & _)]]].
  - congruence.
  - apply sublist_nil_r in Hsub. done.
  - done.
  - fold size in Hsize'. lia.
Qed.

Lemma too_large_is_inherited_witness :
  let small := {| path := JS.lit "src/a.ts"; content := JS.lit "export const a = 1;" |} in
  fst (getProjectReviewFeedback JS.toLowerCase_ascii_only [] (Some (JS.lit "secret-key"))
         (fun _ => inl (Some (JS.lit "Project Review for: demo")))
         [small; filler_file 3799915] (JS.lit "demo"))
  = Rejected (msg_too_large
                (JS.utf8_length (combinedContent [small; filler_file 3799915] (JS.lit "demo")))).
Proof.
  intros small.
  destruct (too_large_is_inherited JS.toLowerCase_ascii_only [] (Some (JS.lit "secret-key"))
              (fun _ => inl (Some (JS.lit "Project Review for: demo")))
              [filler_file 3799915] [small; filler_file 3799915] (JS.lit "demo"))
    as (_ & ->); [reflexivity | discriminate | | | reflexivity].
  - apply sublist_cons. reflexivity.
  - rewrite blob_size_filler. reflexivity.
Defined.

(** X19. The blob starts with the header line naming the project and
    holds, for every file of the list, its whole block, so its path and its
    content unchanged; the blocks come in the order of the list. *)
Theorem blob_holds_every_file
    (files : list ProjectFile) (projectName : jsstring) (file : ProjectFile) :
  file ∈ files ->
  JS.startsWith (combinedContent files projectName)
    (JS.lit "Project Name: " ++ projectName ++ nl ++ nl) = true
  /\ JS.includes (combinedContent files projectName) (file_block file) = true
  /\ JS.includes (combinedContent files projectName) (path file) = true
  /\ JS.includes (combinedContent files projectName) (content file) = true
  /\ forall before after,
       files = before ++ file :: after ->
       combinedContent files projectName
       = combinedContent before projectName ++ file_block file
         ++ concat (file_block <$> after).
Proof.
  intros Hin.
  assert (Horder : forall before after,
             files = before ++ file :: after ->
             combinedContent files projectName
             = combinedContent before projectName ++ file_block file
               ++ concat (file_block <$> after)).
  { intros before after ->. unfold combinedContent.
    by rewrite fmap_app, fmap_cons, concat_app, <- !app_assoc. }
  apply list_elem_of_split in Hin as (before & after & Hsplit).
  rewrite (Horder before after Hsplit).
  split_and!.
  - unfold combinedContent. rewrite <- app_assoc. apply startsWith_app.
  - apply includes_intro.
  - apply includes_widen. unfold file_block. apply includes_intro.
  - rewrite file_block_parts.
    replace (combinedContent before projectName ++ open_marker ++ path file ++ path_close
             ++ content file ++ content_close (path file) ++ concat (file_block <$> after))
      with ((combinedContent before projectName ++ open_marker ++ path file ++ path_close)
            ++ content file ++ content_close (path file) ++ concat (file_block <$> after))
      by (by rewrite <- !app_assoc).
    apply includes_intro.
  - by rewrite <- (Horder before after Hsplit).
Qed.

Lemma blob_holds_every_file_witness :
  let a := {| path := JS.lit "src/a.ts"; content := JS.lit "export const a = 1;" |} in
  let b := {| path := JS.lit "README"; content := JS.lit "Read me." |} in
  JS.includes (combinedContent [a; b] (JS.lit "demo")) (JS.lit "Read me.") = true.
Proof.
  intros a b.
  apply (blob_holds_every_file [a; b] (JS.lit "demo") b).
  apply list_elem_of_further. apply list_elem_of_here.
Defined.

(** ** [App]: the review action *)

Section AppFacts.

Variable toLowerCase : jsstring -> jsstring.
Variable SYSTEM_INSTRUCTION_PROJECT : jsstring.
Variable API_KEY : option jsstring.
Variable generateContent : Request -> option jsstring + Thrown.

(** The ways [handleReviewProject] ends for a project with files. *)
Lemma handleReviewProject_cases (st : AppState) :
  app_projectFiles st <> [] ->
  let run := getProjectReviewFeedback toLowerCase SYSTEM_INSTRUCTION_PROJECT API_KEY
               generateContent (app_projectFiles st)
               (projectName_or_default (app_projectName st)) in
  let done_ := handleReviewProject toLowerCase SYSTEM_INSTRUCTION_PROJECT API_KEY
                 generateContent st in
  (exists text,
      run = (Resolved text, snd run)
      /\ done_ = ({| app_projectFiles := app_projectFiles st;
                     app_projectName := app_projectName st;
                     app_feedback := text;
                     app_isLoading := false;
                     app_error := None |}, snd run))
  \/ (exists message,
         run = (Rejected message, snd run)
         /\ done_ = ({| app_projectFiles := app_projectFiles st;
                        app_projectName := app_projectName st;
                        app_feedback := None;
                        app_isLoading := false;
                        app_error := Some message |},
                     snd run ++ [ConsoleError log_review_error])).
Proof.
  intros Hfiles run done_. unfold done_, handleReviewProject.
  destruct (app_projectFiles st) as [|file files] eqn:E; [done|].
  cbn [length Nat.eqb]. fold run.
  destruct run as [[text|message] trace]; [left; by exists text | right; by exists message].
Qed.

Lemma review_message_nonempty (files : list ProjectFile) (projectName message : jsstring) :
  fst (getProjectReviewFeedback toLowerCase SYSTEM_INSTRUCTION_PROJECT API_KEY
         generateContent files projectName) = Rejected message ->
  message <> []
  /\ (files <> [] -> message <> msg_no_files).
Proof.
  destruct (review_cases toLowerCase SYSTEM_INSTRUCTION_PROJECT API_KEY generateContent
              files projectName)
    as [[_ ->] | [(_ & -> & ->) | [(_ & _ & _ & ->)
         | (_ & _ & _ & [(text & _ & ->) | (e & _ & ->)])]]];
    cbn [fst]; intros [= <-]; (split; [|intros Hne E; symmetry in E]); try done.
  - apply translate_failure_shape.
  - by apply (msg_no_files_distinct toLowerCase) in E.
Qed.

Lemma review_remote_calls (files : list ProjectFile) (projectName : jsstring) :
  let run := getProjectReviewFeedback toLowerCase SYSTEM_INSTRUCTION_PROJECT API_KEY
               generateContent files projectName in
  requests (snd run) = []
  \/ requests (snd run)
     = [{| req_model := model; req_contents := combinedContent files projectName;
           req_systemInstruction := SYSTEM_INSTRUCTION_PROJECT |}].
Proof.
  intros run. unfold run.
  destruct (review_cases toLowerCase SYSTEM_INSTRUCTION_PROJECT API_KEY generateContent
              files projectName)
    as [[_ ->] | [(_ & _ & ->) | [(_ & _ & _ & ->)
         | (_ & _ & _ & [(text & _ & ->) | (e & _ & ->)])]]]; auto.
Qed.

End AppFacts.

(** X20. After a click on the review button feedback and error are never
    both set, and an error is never the empty text, so it is always
    displayed; the project is left as it was.  With an empty project the
    error is the handler's own message.  With files in the project the
    loading flag is down again at the end, error is the message the service
    call was rejected with, feedback is the text it resolved to, and
    neither is set exactly when the call resolved without a text, the
    response of the service having none. *)
Theorem review_sets_feedback_or_error
    (toLowerCase : jsstring -> jsstring) (SYSTEM_INSTRUCTION_PROJECT : jsstring)
    (API_KEY : option jsstring) (generateContent : Request -> option jsstring + Thrown)
    (st : AppState) :
  let st' := fst (handleReviewProject toLowerCase SYSTEM_INSTRUCTION_PROJECT API_KEY
                    generateContent st) in
  let run := getProjectReviewFeedback toLowerCase SYSTEM_INSTRUCTION_PROJECT API_KEY
               generateContent (app_projectFiles st)
               (projectName_or_default (app_projectName st)) in
  app_projectFiles st' = app_projectFiles st
  /\ app_projectName st' = app_projectName st
  /\ (app_feedback st' = None \/ app_error st' = None)
  /\ (forall message, app_error st' = Some message -> message <> [])
  /\ (app_projectFiles st = [] ->
      app_feedback st' = None /\ app_error st' = Some msg_select_project)
  /\ (app_projectFiles st <> [] ->
      app_isLoading st' = false
      /\ (forall text, app_feedback st' = Some text <-> fst run = Resolved (Some text))
      /\ (forall message, app_error st' = Some message <-> fst run = Rejected message)
      /\ (app_feedback st' = None /\ app_error st' = None <-> fst run = Resolved None)).
Proof.
  intros st' run.
  destruct (decide (app_projectFiles st = [])) as [Hempty|Hfiles].
  - unfold st', handleReviewProject. rewrite Hempty. cbn.
    split_and!; [done | done | by left | by intros message [= <-] | done | done].
  - destruct (handleReviewProject_cases toLowerCase SYSTEM_INSTRUCTION_PROJECT API_KEY
                generateContent st Hfiles)
      as [(text & Hrun & Hdone) | (message & Hrun & Hdone)];
      fold run in Hrun; unfold st'; rewrite Hdone, Hrun; cbn.
    + split_and!; [done | done | by right | done | done |].
      intros _. split_and!; [done | | |].
      * intros x; split; congruence.
      * intros x; split; congruence.
      * split; [intros [-> _]; done | intros [= ->]; done].
    + split_and!; [done | done | by left | | done |].
      * intros x [= <-].
        destruct (review_message_nonempty toLowerCase SYSTEM_INSTRUCTION_PROJECT API_KEY
                    generateContent (app_projectFiles st)
                    (projectName_or_default (app_projectName st)) message) as [Hne _];
          [|done].
        fold run. by rewrite Hrun.
      * intros _. split_and!; [done | | |].
        -- intros x; split; congruence.
        -- intros x; split; congruence.
        -- split; [intros [_ ?]; done | done].
Qed.

Example review_without_text :
  let st := {| app_projectFiles :=
                 [ {| path := JS.lit "src/a.ts"; content := JS.lit "export const a = 1;" |} ];
               app_projectName := Some (JS.lit "demo"); app_feedback := None;
               app_isLoading := false; app_error := None |} in
  let st' := fst (handleReviewProject JS.toLowerCase_ascii_only [] (Some (JS.lit "secret-key"))
                    (fun _ => inl None) st) in
  app_feedback st' = None /\ app_error st' = None /\ app_isLoading st' = false.
Proof. by vm_compute. Qed.

(** X21. The no-files message of the service is never shown by [App]: with
    an empty project the handler stops with its own message, calls nothing
    and leaves the loading flag alone; with files the service has other
    messages only. *)
Theorem service_no_files_message_never_shown
    (toLowerCase : jsstring -> jsstring) (SYSTEM_INSTRUCTION_PROJECT : jsstring)
    (API_KEY : option jsstring) (generateContent : Request -> option jsstring + Thrown)
    (st : AppState) :
  let done_ := handleReviewProject toLowerCase SYSTEM_INSTRUCTION_PROJECT API_KEY
                 generateContent st in
  app_error (fst done_) <> Some msg_no_files
  /\ (app_projectFiles st = [] ->
      snd done_ = []
      /\ app_error (fst done_) = Some msg_select_project
      /\ app_feedback (fst done_) = None
      /\ app_isLoading (fst done_) = app_isLoading st).
Proof.
  intros done_.
  destruct (decide (app_projectFiles st = [])) as [Hempty|Hfiles].
  - unfold done_, handleReviewProject. rewrite Hempty. cbn. by split_and!.
  - split; [|done].
    destruct (handleReviewProject_cases toLowerCase SYSTEM_INSTRUCTION_PROJECT API_KEY
                generateContent st Hfiles)
      as [(text & Hrun & Hdone) | (message & Hrun & Hdone)];
      unfold done_; rewrite Hdone; cbn; [done|].
    intros [= ->].
    destruct (review_message_nonempty toLowerCase SYSTEM_INSTRUCTION_PROJECT API_KEY
                generateContent (app_projectFiles st)
                (projectName_or_default (app_projectName st)) msg_no_files) as [_ Hne];
      [by rewrite Hrun|].
    by apply Hne.
Qed.

(** X22. A folder selection followed by a review: the project becomes the
    files admitted among the first 500 descriptors, earlier feedback is
    dropped, and the service receives at most one request, whose contents
    are the blob of exactly those files under the folder name (or
    [Unnamed Project]).  When no file is admitted the service is not
    called. *)
Theorem select_then_review_sends_admitted_files
    (toLowerCase : jsstring -> jsstring) (SYSTEM_INSTRUCTION_PROJECT : jsstring)
    (API_KEY : option jsstring) (generateContent : Request -> option jsstring + Thrown)
    (st : AppState) (htmlFiles : option (list File)) :
  let accepted := omap (admitted toLowerCase) (take MAX_TOTAL_FILES (default [] htmlFiles)) in
  let folder := onFilesSelected_folder (handleFileChange toLowerCase htmlFiles) in
  let done_ := select_then_review toLowerCase SYSTEM_INSTRUCTION_PROJECT API_KEY
                 generateContent st htmlFiles in
  app_projectFiles (fst done_) = accepted
  /\ app_projectName (fst done_) = folder
  /\ (accepted = [] ->
      snd done_ = [] /\ app_error (fst done_) = Some msg_select_project
      /\ app_feedback (fst done_) = None)
  /\ (requests (snd done_) = []
      \/ requests (snd done_)
         = [{| req_model := model;
               req_contents := combinedContent accepted (projectName_or_default folder);
               req_systemInstruction := SYSTEM_INSTRUCTION_PROJECT |}]).
Proof.
  intros accepted folder done_.
  unfold done_, select_then_review. fold folder.
  rewrite handleFileChange_accepted. fold accepted.
  set (selected := handleFilesSelected st accepted folder).
  destruct (decide (accepted = [])) as [Hempty|Hfiles].
  - unfold handleReviewProject, selected, handleFilesSelected.
    cbn [app_projectFiles app_projectName app_isLoading]. rewrite Hempty.
    cbn [length Nat.eqb fst snd app_projectFiles app_projectName app_error app_feedback].
    split_and!; [done | done | done | by left].
  - destruct (handleReviewProject_cases toLowerCase SYSTEM_INSTRUCTION_PROJECT API_KEY
                generateContent selected Hfiles)
      as [(text & Hrun & ->) | (message & Hrun & ->)]; cbn [fst snd];
      (split_and!; [done | done | done |]).
    + apply review_remote_calls.
    + unfold requests. rewrite omap_app. cbn [omap list_omap]. rewrite app_nil_r.
      apply review_remote_calls.
Qed.

(** ** The two tables together *)

Lemma allow_list_entries_pass :
  Forall (fun x =>
            JS.is_ascii x
            /\ List.find (matchesPattern JS.toLowerCase_ascii_only (JS.replace_backslashes x))
                 IGNORED_PATTERNS = None
            /\ allowed (BARE_FILENAME (JS.replace_backslashes x)) = true)
    ALLOWED_EXTENSIONS_AND_FILENAMES.
Proof. unfold JS.is_ascii. by_evaluation. Qed.

(** X23. No entry of the allow-list is dead: a file at the root whose name
    is an entry of the list, and whose size is within the cap, is matched
    by no ignore pattern and is accepted. *)
Theorem every_allow_list_entry_is_accepted
    (toLowerCase : jsstring -> jsstring) (entry : jsstring) (fileSize : N) :
  JS.lowercases_ascii toLowerCase ->
  (fileSize <= MAX_FILE_SIZE_BYTES)%N ->
  entry ∈ ALLOWED_EXTENSIONS_AND_FILENAMES ->
  List.find (matchesPattern toLowerCase (JS.replace_backslashes entry)) IGNORED_PATTERNS = None
  /\ shouldIgnoreFile toLowerCase entry fileSize = accept.
Proof.
  intros Hlow Hsize Hin.
  pose proof allow_list_entries_pass as Hall. rewrite Forall_forall in Hall.
  destruct (Hall entry Hin) as (Hascii & Hnone & Hbare).
  assert (Hfind : List.find (matchesPattern toLowerCase (JS.replace_backslashes entry))
                    IGNORED_PATTERNS = None).
  { rewrite find_pattern_ascii; [done | done |]. by apply replace_backslashes_ascii. }
  split; [done|].
  unfold shouldIgnoreFile. rewrite shouldIgnoreFile_sized, Hfind by done.
  by rewrite allow_list_verdict_cases, Hbare.
Qed.

Lemma every_allow_list_entry_is_accepted_witness :
  shouldIgnoreFile JS.toLowerCase_ascii_only (JS.lit "Dockerfile") 512 = accept.
Proof.
  apply (every_allow_list_entry_is_accepted JS.toLowerCase_ascii_only (JS.lit "Dockerfile") 512).
  - exact toLowerCase_ascii_only_ok.
  - vm_compute. discriminate.
  - by_evaluation.
Defined.
